(** * Reservation-booking agent: orchestrator, sniper and notification router

    A shallow embedding of the Python sources

    - [services/resy_service.py]         (slot selection, [search_and_book],
                                          the three HTTP calls)
    - [services/orchestrator.py]         ([process_reservation], the sniper,
                                          [_try_resy])
    - [services/notification_handler.py] ([handle_notifications],
                                          [_process_match])
    - [services/gmail_monitor.py]        ([_identify_platform])
    - [routers/reservations.py]          (cancel and retry)
    - [routers/status.py]                ([system_status])
    - [models.py]                        (the four tables and their
                                          NOT NULL columns)

    Python [str] values are Rocq strings read as sequences of code points
    below 256.  Database rows are records, the request table is a finite map
    keyed by the primary key, and the asynchronous functions are written in a
    state-and-exception monad over the store and an explicit world (clock and
    scripted replies of the Resy HTTP API). *)

From stdpp Require Import gmap strings list.
From Stdlib Require Import ZArith Ascii String Lia.

Local Open Scope string_scope.
Local Open Scope list_scope.
Local Open Scope Z_scope.

(* ====================================================================== *)
(** ** Python string primitives *)
(* ====================================================================== *)

Module PyStr.

Definition code (c : ascii) : N := N_of_ascii c.

(** [str.lower] on one code point below 256: A-Z and the Latin-1 capitals
    (0xC0-0xDE except the multiplication sign 0xD7) move up by 32. *)
Definition lower_char (c : ascii) : ascii :=
  let n := code c in
  if ((65 <=? n) && (n <=? 90))%N
     || ((192 <=? n) && (n <=? 222) && negb (n =? 215))%N
  then ascii_of_N (n + 32)
  else c.

Fixpoint lower (s : string) : string :=
  match s with
  | EmptyString => EmptyString
  | String c s' => String (lower_char c) (lower s')
  end.

(** [needle in hay] for two [str] values. *)
Fixpoint contains (needle hay : string) : bool :=
  String.prefix needle hay
  || match hay with
     | EmptyString => false
     | String _ hay' => contains needle hay'
     end.

(** [s[a:b]] for literal bounds [0 <= a <= b] (slices never raise). *)
Definition slice (a b : nat) (s : string) : string :=
  String.substring a (b - a) s.

(** [s.split(sep)] for a one-character separator; the result is never
    empty. *)
Fixpoint split (sep : ascii) (s : string) : list string :=
  match s with
  | EmptyString => [EmptyString]
  | String c s' =>
      if Ascii.eqb c sep then EmptyString :: split sep s'
      else match split sep s' with
           | [] => [String c EmptyString]
           | w :: ws => String c w :: ws
           end
  end.

(** [l[-1]] on the result of a split. *)
Definition last_item (l : list string) : string := List.last l EmptyString.

(** White space skipped by [int()] at both ends of its argument. *)
Definition is_space (c : ascii) : bool :=
  let n := code c in
  (((9 <=? n) && (n <=? 13)) || (n =? 32) || (n =? 133) || (n =? 160))%N.

Definition digit_val (c : ascii) : option Z :=
  let n := code c in
  if ((48 <=? n) && (n <=? 57))%N then Some (Z.of_N n - 48) else None.

Fixpoint lstrip (s : string) : string :=
  match s with
  | String c s' => if is_space c then lstrip s' else s
  | EmptyString => EmptyString
  end.

(** Trailing white space is dropped from the right. *)
Fixpoint rstrip (s : string) : string :=
  match s with
  | EmptyString => EmptyString
  | String c s' =>
      match rstrip s' with
      | EmptyString => if is_space c then EmptyString else String c EmptyString
      | r => String c r
      end
  end.

(** Decimal digits with single underscores allowed between digits.
    [acc] is the value read so far, [after_digit] tells whether the
    previous character was a digit. *)
Fixpoint digits (acc : Z) (after_digit : bool) (s : string) : option Z :=
  match s with
  | EmptyString => if after_digit then Some acc else None
  | String c s' =>
      match digit_val c with
      | Some d => digits (acc * 10 + d) true s'
      | None =>
          if (code c =? 95)%N && after_digit then
            match s' with
            | String c' _ =>
                match digit_val c' with
                | Some _ => digits acc false s'
                | None => None
                end
            | EmptyString => None
            end
          else None
      end
  end.

(** [int(s)] in base ten; [None] stands for [ValueError]. *)
Definition py_int (s : string) : option Z :=
  match rstrip (lstrip s) with
  | String "+" body => digits 0 false body
  | String "-" body => Z.opp <$> digits 0 false body
  | body => digits 0 false body
  end.

End PyStr.

(* ====================================================================== *)
(** ** services/resy_service.py *)
(* ====================================================================== *)

Module Resy.

(** A slot dict as built by [find_available_slots]: always the four keys
    [config_id], [token], [time], [type]; each value is the text the JSON
    payload held, or [None] when the key was absent there.  Having four
    keys, a slot dict is never falsy. *)
Record Slot := {
  config_id : option string;
  token : option string;
  time : option string;
  type : option string;
}.

(** The clock part of a slot time, which is either "2024-01-15 19:30:00"
    or just "19:30". *)
Definition time_part (slot_time : string) : string :=
  if PyStr.contains " " slot_time
  then PyStr.slice 0 5 (PyStr.last_item (PyStr.split " " slot_time))
  else PyStr.slice 0 5 slot_time.

(** The local function [time_diff] of [_pick_best_slot].  Every failure of
    [int()] is caught by the [except] clause and yields 9999. *)
Definition time_diff (preferred_time : string) (slot : Slot) : Z :=
  match time slot with
  | None => 9999
  | Some EmptyString => 9999
  | Some slot_time =>
      match PyStr.py_int (PyStr.slice 0 2 (time_part slot_time)),
            PyStr.py_int (PyStr.slice 3 5 (time_part slot_time)),
            PyStr.py_int (PyStr.slice 0 2 preferred_time),
            PyStr.py_int (PyStr.slice 3 5 preferred_time) with
      | Some sh, Some sm, Some ph, Some pm =>
          Z.abs ((sh * 60 + sm) - (ph * 60 + pm))
      | _, _, _, _ => 9999
      end
  end.

(** [min(items, key=key)]: one left-to-right pass that replaces the running
    best only by a strictly smaller key. *)
Fixpoint min_by {A : Type} (key : A → Z) (best : A) (rest : list A) : A :=
  match rest with
  | [] => best
  | x :: rest' => min_by key (if key x <? key best then x else best) rest'
  end.

Definition _pick_best_slot (slots : list Slot) (preferred_time : string)
  : option Slot :=
  match slots with
  | [] => None
  | s :: rest => Some (min_by (time_diff preferred_time) s rest)
  end.

End Resy.

(* ====================================================================== *)
(** ** Python results and the Resy booking round trip *)
(* ====================================================================== *)

(** What a call into the HTTP client can do: return a value or raise. *)
Inductive PyResult (A : Type) : Type :=
| Returns (a : A)
| Raises (exn : string).
Arguments Returns {A} a.
Arguments Raises {A} exn.

Module ResyApi.
Import Resy.

(** The dict returned by [get_slot_details]. *)
Record SlotDetails := {
  book_token : option string;
  date_starts : option string;
  cancellation_policy : option string;
}.

(** The result dict of [book_slot] and [search_and_book].  [booked_time] is
    [None] while the key is absent and [Some v] once it has been set to
    [v] (which is itself the slot's possibly missing time). *)
Record BookResult := {
  success : bool;
  error : option string;
  resy_token : option string;
  reservation_id : option string;
  raw : option string;
  booked_time : option (option string);
}.

Definition failure (msg : string) : BookResult :=
  {| success := false; error := Some msg; resy_token := None;
     reservation_id := None; raw := None; booked_time := None |}.

Definition with_booked_time (t : option string) (r : BookResult) : BookResult :=
  {| success := success r; error := error r; resy_token := resy_token r;
     reservation_id := reservation_id r; raw := raw r;
     booked_time := Some t |}.

(** The replies of the three endpoints used by one [search_and_book]. *)
Record Exchange := {
  find_available_slots : string → string → Z → PyResult (list Slot);
  get_slot_details : option string → string → Z → PyResult (option SlotDetails);
  book_slot : string → PyResult BookResult;
}.

(** The tail of [search_and_book] once a slot [best] has been chosen. *)
Definition book_best (x : Exchange) (best : Slot) (date : string)
    (party_size : Z) : PyResult BookResult :=
  match get_slot_details x (config_id best) date party_size with
  | Raises e => Raises e
  | Returns None => Returns (failure "details_failed")
  | Returns (Some details) =>
      match book_token details with
      | None | Some EmptyString => Returns (failure "details_failed")
      | Some tok =>
          match book_slot x tok with
          | Raises e => Raises e
          | Returns result =>
              if success result
              then Returns (with_booked_time (time best) result)
              else Returns result
          end
      end
  end.

Definition search_and_book (x : Exchange) (venue_id date time_preferred : string)
    (party_size : Z) : PyResult BookResult :=
  match find_available_slots x venue_id date party_size with
  | Raises e => Raises e
  | Returns [] => Returns (failure "no_availability")
  | Returns slots =>
      match _pick_best_slot slots time_preferred with
      | None => Returns (failure "no_matching_slot")
      | Some best => book_best x best date party_size
      end
  end.

End ResyApi.

(* ====================================================================== *)
(** ** models.py: the four tables *)
(* ====================================================================== *)

Module ReservationRequest.
(** One row of [reservation_requests]; the primary key is the key of the
    table.  Instants are milliseconds on the process clock.  The
    bookkeeping columns [created_at] and [updated_at] are left out. *)
Record t := {
  restaurant_name : string;
  date : string;
  time : string;
  party_size : Z;
  contact_email : string;
  status : string;
  venue_id : option string;
  booking_open_time : option Z;
  poll_attempts : Z;
  max_poll_duration_secs : Z;
  platform : option string;
}.

Definition set_status (v : string) (r : t) : t :=
  {| restaurant_name := restaurant_name r; date := date r; time := time r;
     party_size := party_size r; contact_email := contact_email r;
     status := v; venue_id := venue_id r;
     booking_open_time := booking_open_time r;
     poll_attempts := poll_attempts r;
     max_poll_duration_secs := max_poll_duration_secs r;
     platform := platform r |}.

Definition set_venue_id (v : option string) (r : t) : t :=
  {| restaurant_name := restaurant_name r; date := date r; time := time r;
     party_size := party_size r; contact_email := contact_email r;
     status := status r; venue_id := v;
     booking_open_time := booking_open_time r;
     poll_attempts := poll_attempts r;
     max_poll_duration_secs := max_poll_duration_secs r;
     platform := platform r |}.

Definition set_platform (v : option string) (r : t) : t :=
  {| restaurant_name := restaurant_name r; date := date r; time := time r;
     party_size := party_size r; contact_email := contact_email r;
     status := status r; venue_id := venue_id r;
     booking_open_time := booking_open_time r;
     poll_attempts := poll_attempts r;
     max_poll_duration_secs := max_poll_duration_secs r;
     platform := v |}.

Definition set_poll_attempts (v : Z) (r : t) : t :=
  {| restaurant_name := restaurant_name r; date := date r; time := time r;
     party_size := party_size r; contact_email := contact_email r;
     status := status r; venue_id := venue_id r;
     booking_open_time := booking_open_time r;
     poll_attempts := v;
     max_poll_duration_secs := max_poll_duration_secs r;
     platform := platform r |}.
End ReservationRequest.

Module NotificationSubscription.
Record t := {
  id : Z;
  request_id : Z;
  platform : string;
  active : bool;
  search_date : string;
  search_time : string;
  search_party_size : Z;
  restaurant_name : string;
  venue_id : option string;
}.

Definition set_active (v : bool) (s : t) : t :=
  {| id := id s; request_id := request_id s; platform := platform s;
     active := v; search_date := search_date s;
     search_time := search_time s;
     search_party_size := search_party_size s;
     restaurant_name := restaurant_name s; venue_id := venue_id s |}.
End NotificationSubscription.

Module Booking.
(** One row of [bookings].  [confirmation_id] and [raw_response] are the
    nullable columns; every other column, [time] included, is NOT NULL. *)
Record t := {
  request_id : Z;
  platform : string;
  confirmation_id : option string;
  restaurant_name : string;
  date : string;
  time : string;
  party_size : Z;
  status : string;
  raw_response : option string;
}.
End Booking.

Module ActivityLog.
(** The [details] payload before [json.dumps].  [WaitSeconds] keeps the
    wait in milliseconds where the source logs seconds rounded to one
    decimal. *)
Inductive Details :=
| Reason (reason : string)
| WaitSeconds (wait_ms : Z)
| SniperTimeout (poll_attempts duration_secs : Z)
| Restaurant (restaurant : string)
| Result (result : ResyApi.BookResult)
| Notification (restaurant subject email_id : option string).

Record t := {
  request_id : option Z;
  action : string;
  platform : option string;
  details : option Details;
}.
End ActivityLog.

(** The database: the request table by primary key, the other three tables
    in insertion order. *)
Record Store := {
  requests : gmap Z ReservationRequest.t;
  subscriptions : list NotificationSubscription.t;
  bookings : list Booking.t;
  activity_log : list ActivityLog.t;
}.

Definition set_requests (m : gmap Z ReservationRequest.t) (st : Store) : Store :=
  {| requests := m; subscriptions := subscriptions st;
     bookings := bookings st; activity_log := activity_log st |}.

Definition set_subscriptions (l : list NotificationSubscription.t) (st : Store) : Store :=
  {| requests := requests st; subscriptions := l;
     bookings := bookings st; activity_log := activity_log st |}.

Definition add_booking (b : Booking.t) (st : Store) : Store :=
  {| requests := requests st; subscriptions := subscriptions st;
     bookings := bookings st ++ [b]; activity_log := activity_log st |}.

Definition add_log (e : ActivityLog.t) (st : Store) : Store :=
  {| requests := requests st; subscriptions := subscriptions st;
     bookings := bookings st; activity_log := activity_log st ++ [e] |}.

(** [count(Bookings where request_id = id and status = "confirmed")]. *)
Definition confirmed_bookings (request_id : Z) (st : Store) : nat :=
  List.length (filter (λ b, Booking.request_id b = request_id
                            ∧ Booking.status b = "confirmed") (bookings st)).

(* ====================================================================== *)
(** ** The world and the session monad *)
(* ====================================================================== *)

(** What the Resy HTTP API answers during one call of [_try_resy]:
    the venue search, the booking round trip and the time the round trip
    takes (milliseconds). *)
Record Attempt := {
  search_venues : string → PyResult (list string);
  exchange : ResyApi.Exchange;
  elapsed : N;
}.

(** The process state: the clock in milliseconds, the number of
    [_try_resy] calls made so far, and the database. *)
Record State := {
  now : Z;
  attempts : nat;
  store : Store;
}.

Definition set_store (st : Store) (s : State) : State :=
  {| now := now s; attempts := attempts s; store := st |}.

Definition advance (ms : Z) (s : State) : State :=
  {| now := now s + ms; attempts := attempts s; store := store s |}.

Definition next_attempt (s : State) : State :=
  {| now := now s; attempts := S (attempts s); store := store s |}.

(** The outcome of running a coroutine to completion.  [OutOfFuel] only
    marks a loop cut short by the model's iteration bound. *)
Inductive Outcome (A : Type) : Type :=
| Done (a : A)
| Raised (exn : string)
| OutOfFuel.
Arguments Done {A} a.
Arguments Raised {A} exn.
Arguments OutOfFuel {A}.

Definition M (A : Type) : Type := State → Outcome A * State.

Definition ret {A} (a : A) : M A := λ s, (Done a, s).

Definition bind {A B} (m : M A) (k : A → M B) : M B :=
  λ s, match m s with
       | (Done a, s') => k a s'
       | (Raised e, s') => (Raised e, s')
       | (OutOfFuel, s') => (OutOfFuel, s')
       end.

Definition raise {A} (exn : string) : M A := λ s, (Raised exn, s).

Definition out_of_fuel {A} : M A := λ s, (OutOfFuel, s).

(** [try: body  except Exception: handler]. *)
Definition try_except {A} (body : M A) (handler : M A) : M A :=
  λ s, match body s with
       | (Raised _, s') => handler s'
       | r => r
       end.

Definition lift {A} (r : PyResult A) : M A :=
  match r with
  | Returns a => ret a
  | Raises e => raise e
  end.

Notation "'let!' x ':=' c 'in' k" := (bind c (λ x, k))
  (at level 10, x name, c at level 100, k at level 200).
Notation "c ;;; k" := (bind c (λ _, k))
  (at level 100, k at level 200, right associativity).

(** [await session.get(ReservationRequest, request_id)]. *)
Definition session_get (request_id : Z) : M (option ReservationRequest.t) :=
  λ s, (Done (requests (store s) !! request_id), s).

(** Writing the attributes of a loaded row back at commit. *)
Definition session_put (request_id : Z) (r : ReservationRequest.t) : M unit :=
  λ s, (Done tt, set_store (set_requests (<[request_id := r]> (requests (store s))) (store s)) s).

Definition session_add_booking (b : Booking.t) : M unit :=
  λ s, (Done tt, set_store (add_booking b (store s)) s).

Definition session_add_log (e : ActivityLog.t) : M unit :=
  λ s, (Done tt, set_store (add_log e (store s)) s).

(** [time.time()] and [datetime.now()] read the same clock. *)
Definition clock : M Z := λ s, (Done (now s), s).

(** [await asyncio.sleep(ms / 1000)]. *)
Definition sleep (ms : Z) : M unit := λ s, (Done tt, advance ms s).

(** Python truthiness of an [Optional[str]]. *)
Definition truthy (v : option string) : bool :=
  match v with
  | None | Some EmptyString => false
  | Some _ => true
  end.

(** [a or b] on two optional strings. *)
Definition py_or (a b : option string) : option string :=
  if truthy a then a else b.

(* ====================================================================== *)
(** ** services/orchestrator.py *)
(* ====================================================================== *)

Module Orchestrator.
Import ReservationRequest.

Definition _log (request_id : Z) (action : string) (platform : option string)
    (details : option ActivityLog.Details) : M unit :=
  session_add_log
    {| ActivityLog.request_id := Some request_id;
       ActivityLog.action := action;
       ActivityLog.platform := platform;
       ActivityLog.details := details |}.

(** [request.status = status] on the loaded row [request] of key
    [request_id], then flush. *)
Definition _update_status (request_id : Z) (request : ReservationRequest.t)
    (status : string) : M unit :=
  session_put request_id (set_status status request).

Definition _resolve_venue_id (api : Attempt) (request : ReservationRequest.t)
    : M string :=
  if truthy (venue_id request) then ret (default "" (venue_id request))
  else
    let! results := lift (search_venues api (restaurant_name request)) in
    match results with
    | hit :: _ => ret hit
    | [] => ret ""
    end.

(** [result.get("booked_time", request.time)]: the value of the key when
    the result has it (possibly [None]), the requested time otherwise. *)
Definition booking_time (result : ResyApi.BookResult)
    (request : ReservationRequest.t) : option string :=
  match ResyApi.booked_time result with
  | Some t => t
  | None => Some (time request)
  end.

Section WithPlatform.
(** The scripted Resy API: what it answers on the n-th [_try_resy]. *)
Variable resy : nat → Attempt.

(** The replies the API gives to the call of [_try_resy] that starts
    now. *)
Definition resy_api : M Attempt :=
  λ s, (Done (resy (attempts s)), next_attempt s).

(** In the last block the status, the Booking row and the log entry are
    written in one transaction.  A Booking whose [time] is [None] violates
    the NOT NULL constraint of the column: the flush raises
    [IntegrityError] and the transaction is rolled back, so nothing of the
    block is written. *)
Definition _try_resy (request_id : Z) : M bool :=
  let! request := session_get request_id in
  match request with
  | None => ret false
  | Some request =>
      _log request_id "resy_search" (Some "resy") None ;;;
      let! api := resy_api in
      let! venue := _resolve_venue_id api request in
      if (venue =? "")%string then
        _log request_id "resy_venue_not_found" (Some "resy")
          (Some (ActivityLog.Restaurant (restaurant_name request))) ;;;
        ret false
      else
        (if truthy (venue_id request) then ret tt
         else
           let! req := session_get request_id in
           match req with
           | Some req => session_put request_id (set_venue_id (Some venue) req)
           | None => ret tt
           end) ;;;
        sleep (Z.of_N (elapsed api)) ;;;
        let! result := lift (ResyApi.search_and_book (exchange api) venue
                          (date request) (time request) (party_size request)) in
        let! request' := session_get request_id in
        match request' with
        | None => ret false
        | Some request' =>
            if ResyApi.success result then
              match booking_time result request' with
              | None => raise "IntegrityError"
              | Some booked_time =>
                  session_put request_id
                    (set_platform (Some "resy") (set_status "booked" request')) ;;;
                  session_add_booking
                    {| Booking.request_id := request_id;
                       Booking.platform := "resy";
                       Booking.confirmation_id :=
                         py_or (ResyApi.resy_token result)
                               (ResyApi.reservation_id result);
                       Booking.restaurant_name := restaurant_name request';
                       Booking.date := date request';
                       Booking.time := booked_time;
                       Booking.party_size := party_size request';
                       Booking.status := "confirmed";
                       Booking.raw_response := ResyApi.raw result |} ;;;
                  _log request_id "resy_booked" (Some "resy")
                    (Some (ActivityLog.Result result)) ;;;
                  ret true
              end
            else
              _log request_id "resy_unavailable" (Some "resy")
                (Some (ActivityLog.Result result)) ;;;
              ret false
        end
  end.

(** The last block of [_snipe_reservation], reached when the poll loop
    runs past its deadline. *)
Definition sniper_timed_out (request_id max_poll_duration : Z) : M unit :=
  let! request := session_get request_id in
  match request with
  | Some request =>
      if (status request =? "booked")%string
         || (status request =? "cancelled")%string
      then ret tt
      else
        session_put request_id (set_status "failed" request) ;;;
        _log request_id "sniper_timeout" None
          (Some (ActivityLog.SniperTimeout (poll_attempts request) max_poll_duration))
  | None => ret tt
  end.

(** The rapid poll loop, with the block that follows it.  Every
    iteration that goes round sleeps 500 ms, so [fuel] bounds the number
    of iterations; a [return] inside the loop leaves the function. *)
Fixpoint poll_loop (fuel : nat) (request_id start max_poll_duration : Z)
  : M unit :=
  let! t := clock in
  if t - start <? max_poll_duration * 1000 then
    match fuel with
    | O => out_of_fuel
    | S fuel' =>
        let! request := session_get request_id in
        match request with
        | None => ret tt
        | Some request =>
            if (status request =? "cancelled")%string then ret tt
            else
              let! booked := _try_resy request_id in
              if booked : bool then ret tt
              else
                (let! request := session_get request_id in
                 match request with
                 | Some request =>
                     session_put request_id
                       (set_poll_attempts (poll_attempts request + 1) request)
                 | None => ret tt
                 end) ;;;
                sleep 500 ;;;
                poll_loop fuel' request_id start max_poll_duration
        end
    end
  else sniper_timed_out request_id max_poll_duration.

Definition _snipe_reservation (request_id : Z) : M unit :=
  let! request := session_get request_id in
  match request with
  | None => ret tt
  | Some request =>
      if (status request =? "cancelled")%string then ret tt
      else
        let! t := clock in
        let! wait := match booking_open_time request with
                | Some t0 => ret (t0 - t)
                | None => raise "TypeError"
                end in
        let max_poll_duration := max_poll_duration_secs request in
        (if 0 <? wait then
           session_put request_id (set_status "waiting" request) ;;;
           _log request_id "sniper_waiting" None
             (Some (ActivityLog.WaitSeconds wait)) ;;;
           sleep wait
         else ret tt) ;;;
        let! request := session_get request_id in
        match request with
        | None => ret tt
        | Some request =>
            if (status request =? "cancelled")%string then ret tt
            else
              session_put request_id (set_status "polling" request) ;;;
              _log request_id "sniper_polling_started" None None ;;;
              let! start := clock in
              poll_loop (Z.to_nat (2 * max_poll_duration))
                request_id start max_poll_duration
        end
  end.

(** Step 2 of [process_reservation]: what happens after the immediate
    attempt came back without a booking. *)
Definition after_immediate_attempt (request_id : Z) : M unit :=
  let! request := session_get request_id in
  match request with
  | None => ret tt
  | Some request =>
      if (status request =? "cancelled")%string then ret tt
      else
        match booking_open_time request with
        | Some _ => _snipe_reservation request_id
        | None =>
            session_put request_id (set_status "no_availability" request) ;;;
            _log request_id "no_availability" None
              (Some (ActivityLog.Reason
                       "No slots found and no booking_open_time set"))
        end
  end.

(** The [except Exception] handler of [process_reservation]. *)
Definition orchestration_error (request_id : Z) : M unit :=
  let! request := session_get request_id in
  match request with
  | Some request =>
      if (status request =? "booked")%string
         || (status request =? "cancelled")%string
      then ret tt
      else
        session_put request_id (set_status "failed" request) ;;;
        _log request_id "orchestration_error" None None
  | None => ret tt
  end.

Definition process_reservation (request_id : Z) : M unit :=
  let! request := session_get request_id in
  match request with
  | None => ret tt
  | Some request =>
      _update_status request_id request "searching" ;;;
      _log request_id "search_started" None None ;;;
      try_except
        (let! booked := _try_resy request_id in
         if booked : bool then ret tt
         else after_immediate_attempt request_id)
        (orchestration_error request_id)
  end.

End WithPlatform.

(** The names bound at module level in services/orchestrator.py: what it
    imports, [logger], and its six functions. *)
Definition module_names : list string :=
  ["annotations"; "asyncio"; "json"; "logging"; "time"; "datetime";
   "AsyncSession"; "async_session"; "ActivityLog"; "Booking";
   "ReservationRequest"; "resy_service"; "logger";
   "_log"; "_update_status"; "_resolve_venue_id"; "process_reservation";
   "_snipe_reservation"; "_try_resy"].

End Orchestrator.

(** [from module import name], for a module that binds [names]:
    [ImportError] when [name] is not among them. *)
Definition import_from (names : list string) (name : string) : M unit :=
  if bool_decide (name ∈ names) then ret tt else raise "ImportError".

(** [s.active = False] for every subscription row of the request. *)
Definition deactivate_subscriptions (request_id : Z) : M unit :=
  λ s, (Done tt,
        set_store
          (set_subscriptions
             (List.map (λ sub,
                  if decide (NotificationSubscription.request_id sub = request_id)
                  then NotificationSubscription.set_active false sub
                  else sub)
                (subscriptions (store s)))
             (store s)) s).

(* ====================================================================== *)
(** ** routers/reservations.py *)
(* ====================================================================== *)

Module Reservations.
Import ReservationRequest.

(** [DELETE /api/reservations/{request_id}]. *)
Definition cancel_reservation (request_id : Z) : M string :=
  let! req := session_get request_id in
  match req with
  | None => raise "HTTPException(404, Reservation not found)"
  | Some req =>
      session_put request_id (set_status "cancelled" req) ;;;
      deactivate_subscriptions request_id ;;;
      ret "cancelled"
  end.

(** The transaction of [POST /api/reservations/{request_id}/retry]. *)
Definition retry_transaction (request_id : Z) : M unit :=
  let! req := session_get request_id in
  match req with
  | None => raise "HTTPException(404, Reservation not found)"
  | Some req =>
      if (status req =? "booked")%string
      then raise "HTTPException(400, Already booked)"
      else session_put request_id (set_status "pending" req)
  end.

Section WithPlatform.
Variable resy : nat → Attempt.

(** The retry endpoint with the task it creates run to completion
    before anything else happens. *)
Definition retry_reservation (request_id : Z) : M string :=
  retry_transaction request_id ;;;
  Orchestrator.process_reservation resy request_id ;;;
  ret "retrying".
End WithPlatform.
End Reservations.

(* ====================================================================== *)
(** ** services/notification_handler.py *)
(* ====================================================================== *)

Module NotificationHandler.

(** A parsed notification dict; a field is [None] when the key is
    missing or holds [None]. *)
Record Notification := {
  restaurant_name : option string;
  platform : option string;
  subject : option string;
  email_id : option string;
}.

(** The test of the matching loop on one subscription. *)
Definition name_matches (restaurant_name : string)
    (sub : NotificationSubscription.t) : bool :=
  PyStr.contains (PyStr.lower restaurant_name)
                 (PyStr.lower (NotificationSubscription.restaurant_name sub))
  || PyStr.contains (PyStr.lower (NotificationSubscription.restaurant_name sub))
                    (PyStr.lower restaurant_name).

(** The [select] of active subscriptions on one platform. *)
Definition active_on (platform : string) (st : Store)
    : list NotificationSubscription.t :=
  filter (λ sub, NotificationSubscription.active sub = true
                 ∧ NotificationSubscription.platform sub = platform)
         (subscriptions st).

Definition matched_subscriptions (restaurant_name platform : string)
    (st : Store) : list NotificationSubscription.t :=
  filter (λ sub, name_matches restaurant_name sub = true)
         (active_on platform st).

Section WithAutoBook.
(** What the name [auto_book_from_notification] would be bound to once
    imported: a coroutine that takes the request id and the platform and
    returns a bool.  [_process_match] imports it from
    [services.orchestrator] in its first statement; that module binds no
    such name, so the import raises and the rest of the body is never
    reached. *)
Variable auto_book_from_notification : Z → string → M bool.

Definition _process_match (sub : NotificationSubscription.t)
    (notif : Notification) : M unit :=
  let request_id := NotificationSubscription.request_id sub in
  import_from Orchestrator.module_names "auto_book_from_notification" ;;;
  let! request := session_get request_id in
  match request with
  | None => ret tt
  | Some request =>
      if (ReservationRequest.status request =? "booked")%string
         || (ReservationRequest.status request =? "cancelled")%string
      then ret tt
      else
        session_put request_id
          (ReservationRequest.set_status "notify_received" request) ;;;
        session_add_log
          {| ActivityLog.request_id := Some request_id;
             ActivityLog.action := "notification_received";
             ActivityLog.platform := Some (NotificationSubscription.platform sub);
             ActivityLog.details :=
               Some (ActivityLog.Notification (restaurant_name notif)
                       (subject notif) (email_id notif)) |} ;;;
        let! success := auto_book_from_notification request_id
                          (NotificationSubscription.platform sub) in
        if success : bool then deactivate_subscriptions request_id
        else ret tt
  end.

(** [for sub in matched: await _process_match(sub, notif)]. *)
Fixpoint process_matches (matched : list NotificationSubscription.t)
    (notif : Notification) : M unit :=
  match matched with
  | [] => ret tt
  | sub :: rest => _process_match sub notif ;;; process_matches rest notif
  end.

(** The body of the loop of [handle_notifications] for one
    notification. *)
Definition handle_notification (notif : Notification) : M unit :=
  if negb (truthy (restaurant_name notif)) || negb (truthy (platform notif))
  then ret tt
  else
    let name := default "" (restaurant_name notif) in
    let plat := default "" (platform notif) in
    let! matched := (λ s, (Done (matched_subscriptions name plat (store s)), s)) in
    match matched with
    | [] => ret tt
    | _ => process_matches matched notif
    end.

Fixpoint handle_notifications (notifications : list Notification) : M unit :=
  match notifications with
  | [] => ret tt
  | notif :: rest => handle_notification notif ;;; handle_notifications rest
  end.

End WithAutoBook.
End NotificationHandler.

(* ====================================================================== *)
(** ** Vocabulary of the statements *)
(* ====================================================================== *)

(** Rendering of a wall-clock time as the five characters HH:MM. *)
Module Clock.
Definition digit_char (d : nat) : ascii :=
  match d with
  | 0 => "0" | 1 => "1" | 2 => "2" | 3 => "3" | 4 => "4"
  | 5 => "5" | 6 => "6" | 7 => "7" | 8 => "8" | _ => "9"
  end%nat%char.

Definition two_digits (n : nat) : string :=
  String (digit_char (n / 10)) (String (digit_char (n mod 10)) EmptyString).

Definition hhmm (h m : nat) : string :=
  String (digit_char (h / 10)) (String (digit_char (h mod 10))
    (String ":" (two_digits m))).

(** Minutes after midnight. *)
Definition minutes (h m : nat) : Z := Z.of_nat h * 60 + Z.of_nat m.
End Clock.

(** [needle] occurs in [hay] as a contiguous run of characters. *)
Definition substring_of (needle hay : string) : Prop :=
  ∃ before after : string, hay = (before ++ needle ++ after)%string.

(** The final state of a run. *)
Definition run {A} (m : M A) (s : State) : State := (m s).2.

(** The status column of a request, if the row exists. *)
Definition status_of (request_id : Z) (s : State) : option string :=
  ReservationRequest.status <$> requests (store s) !! request_id.

Definition actions (s : State) : list string :=
  List.map ActivityLog.action (activity_log (store s)).

(** A run only moves forward: the clock and the attempt counter do not go
    back, and the two append-only tables keep what they held. *)
Definition extends (s s' : State) : Prop :=
  now s ≤ now s'
  ∧ (attempts s ≤ attempts s')%nat
  ∧ activity_log (store s) `prefix_of` activity_log (store s')
  ∧ bookings (store s) `prefix_of` bookings (store s').

Definition steady {A} (m : M A) : Prop := ∀ s, extends s (m s).2.

Definition total {A} (m : M A) : Prop := ∀ s, (m s).1 ≠ OutOfFuel.

(** The transition table of the request state machine, written after the
    state diagram of the specification: its arrows, [* → notify_received],
    and [cancelled] from every transient state.  The code holds no such
    table; this one only serves to say which updates would be illegal. *)
Definition transient (status : string) : bool :=
  bool_decide (status ∈ ["pending"; "searching"; "waiting"; "polling";
                         "notify_received"]).

Definition permitted_transition (from to : string) : bool :=
  bool_decide ((from, to) ∈
    [("pending", "searching"); ("searching", "booked");
     ("searching", "no_availability"); ("searching", "waiting");
     ("waiting", "polling"); ("polling", "booked"); ("polling", "failed");
     ("notify_received", "booked"); ("notify_received", "failed")])
  || bool_decide (to = "notify_received")
  || (transient from && bool_decide (to = "cancelled")).

(** A slot time that shows the clock [h]:[m] the way Resy writes it: the
    five characters HH:MM, possibly followed by the seconds, on their own
    ("19:30") or after a date and a space ("2024-01-15 19:30:00"). *)
Definition shows_clock (h m : nat) (slot_time : string) : Prop :=
  ∃ rest : string,
    PyStr.contains " " rest = false
    ∧ (slot_time = (Clock.hhmm h m ++ rest)%string
       ∨ ∃ date : string,
           slot_time = (date ++ " " ++ Clock.hhmm h m ++ rest)%string).

(** Tie-breaking as the specification words it: among the slots at the
    same distance as the chosen one, none is earlier on the clock. *)
Definition ties_go_to_earlier (slots : list Resy.Slot) (preferred_time : string)
  : Prop :=
  ∀ best other hb mb ho mo,
    Resy._pick_best_slot slots preferred_time = Some best →
    other ∈ slots →
    Resy.time best = Some (Clock.hhmm hb mb) →
    Resy.time other = Some (Clock.hhmm ho mo) →
    Resy.time_diff preferred_time other = Resy.time_diff preferred_time best →
    Clock.minutes hb mb ≤ Clock.minutes ho mo.

(** The name test of the notification router, in words: containment of
    the lowercased names in either direction. *)
Definition names_overlap (event_name subscription_name : string) : Prop :=
  substring_of (PyStr.lower event_name) (PyStr.lower subscription_name)
  ∨ substring_of (PyStr.lower subscription_name) (PyStr.lower event_name).

(** A notification the router passes over: a name or platform that is
    missing or empty, or no active subscription on the platform whose name
    overlaps. *)
Definition passed_over (notif : NotificationHandler.Notification) (st : Store)
  : Prop :=
  truthy (NotificationHandler.restaurant_name notif) = false
  ∨ truthy (NotificationHandler.platform notif) = false
  ∨ ∀ sub, sub ∈ subscriptions st →
      NotificationSubscription.active sub = true →
      Some (NotificationSubscription.platform sub)
        = NotificationHandler.platform notif →
      ¬ names_overlap (default "" (NotificationHandler.restaurant_name notif))
          (NotificationSubscription.restaurant_name sub).

(** The state with the row of [request_id] replaced and one log entry
    appended: the effect of one committed status change. *)
Definition committed (request_id : Z) (r : ReservationRequest.t)
    (entry : ActivityLog.t) (s : State) : State :=
  set_store
    (add_log entry
       (set_requests (<[request_id := r]> (requests (store s))) (store s))) s.

Definition log_entry (request_id : Z) (action : string)
    (details : option ActivityLog.Details) : ActivityLog.t :=
  {| ActivityLog.request_id := Some request_id; ActivityLog.action := action;
     ActivityLog.platform := None; ActivityLog.details := details |}.

(* ====================================================================== *)
(** ** Sample data *)
(* ====================================================================== *)

Module Sample.
Definition slot_at (t : string) : Resy.Slot :=
  {| Resy.config_id := Some "cfg-1"; Resy.token := Some "tok-1";
     Resy.time := Some t; Resy.type := Some "Dining Room" |}.

(** The request of the first test scenario, in a given status and with a
    given release instant; the venue is already resolved and the sniper
    would poll for one second. *)
Definition carbone (status : string) (booking_open_time : option Z)
    : ReservationRequest.t :=
  {| ReservationRequest.restaurant_name := "Carbone";
     ReservationRequest.date := "2025-06-01";
     ReservationRequest.time := "19:00";
     ReservationRequest.party_size := 2;
     ReservationRequest.contact_email := "";
     ReservationRequest.status := status;
     ReservationRequest.venue_id := Some "123";
     ReservationRequest.booking_open_time := booking_open_time;
     ReservationRequest.poll_attempts := 0;
     ReservationRequest.max_poll_duration_secs := 1;
     ReservationRequest.platform := None |}.

Definition confirmation : ResyApi.BookResult :=
  {| ResyApi.success := true; ResyApi.error := None;
     ResyApi.resy_token := Some "R-abc"; ResyApi.reservation_id := None;
     ResyApi.raw := None; ResyApi.booked_time := None |}.

Definition open_table : ResyApi.Exchange :=
  {| ResyApi.find_available_slots := λ _ _ _, Returns [slot_at "19:00"];
     ResyApi.get_slot_details := λ _ _ _,
       Returns (Some {| ResyApi.book_token := Some "bt-1";
                        ResyApi.date_starts := None;
                        ResyApi.cancellation_policy := None |});
     ResyApi.book_slot := λ _, Returns confirmation |}.

Definition sold_out : ResyApi.Exchange :=
  {| ResyApi.find_available_slots := λ _ _ _, Returns [];
     ResyApi.get_slot_details := λ _ _ _, Returns None;
     ResyApi.book_slot := λ _, Returns (ResyApi.failure "closed") |}.

(** A restaurant with one free table whose slot carries no start time. *)
Definition untimed_table : ResyApi.Exchange :=
  {| ResyApi.find_available_slots := λ _ _ _,
       Returns [{| Resy.config_id := Some "cfg-1"; Resy.token := Some "tok-1";
                   Resy.time := None; Resy.type := Some "Dining Room" |}];
     ResyApi.get_slot_details := λ _ _ _,
       Returns (Some {| ResyApi.book_token := Some "bt-1";
                        ResyApi.date_starts := None;
                        ResyApi.cancellation_policy := None |});
     ResyApi.book_slot := λ _, Returns confirmation |}.

Definition books_untimed : nat → Attempt :=
  λ _, {| search_venues := λ _, Returns ["123"];
          exchange := untimed_table; elapsed := 200 |}.

Definition always_books : nat → Attempt :=
  λ _, {| search_venues := λ _, Returns ["123"];
          exchange := open_table; elapsed := 200 |}.

Definition never_books : nat → Attempt :=
  λ _, {| search_venues := λ _, Returns ["123"];
          exchange := sold_out; elapsed := 200 |}.

Definition subscription (name : string) : NotificationSubscription.t :=
  {| NotificationSubscription.id := 7;
     NotificationSubscription.request_id := 1;
     NotificationSubscription.platform := "resy";
     NotificationSubscription.active := true;
     NotificationSubscription.search_date := "2025-06-01";
     NotificationSubscription.search_time := "19:00";
     NotificationSubscription.search_party_size := 2;
     NotificationSubscription.restaurant_name := name;
     NotificationSubscription.venue_id := None |}.

(** A database holding the one request [r] under key 1 and the
    subscriptions [subs], at clock 1000. *)
Definition state_of (r : ReservationRequest.t)
    (subs : list NotificationSubscription.t) : State :=
  {| now := 1000; attempts := 0;
     store := {| requests := {[ 1 := r ]}; subscriptions := subs;
                 bookings := []; activity_log := [] |} |}.

Definition notification (name : option string) : NotificationHandler.Notification :=
  {| NotificationHandler.restaurant_name := name;
     NotificationHandler.platform := Some "resy";
     NotificationHandler.subject := Some "Good news!";
     NotificationHandler.email_id := Some "42" |}.

(** An auto-book entry point that never books. *)
Definition no_auto_book : Z → string → M bool := λ _ _, ret false.
End Sample.

(* ====================================================================== *)
(** ** services/resy_service.py: the HTTP layer *)
(* ====================================================================== *)

Module ResyHttp.

(** An [httpx] response: the status code, the body as text, and what
    [resp.json()] gives (it raises when the body is not JSON). *)
Record Response (Body : Type) := {
  status_code : Z;
  text : string;
  json : PyResult Body;
}.
Arguments status_code {Body} _.
Arguments text {Body} _.
Arguments json {Body} _.

(** The payload of [GET /4/find] as far as [find_available_slots] reads it.
    A key that is missing is [None]; a value that is present has the type
    the endpoint documents. *)
Record Config := {
  id : option string;
  token : option string;
  type : option string;
}.

Record DateInfo := { start : option string }.

Record SlotGroup := {
  config : option Config;
  date : option DateInfo;
}.

Record Venue := { slots : option (list SlotGroup) }.

Record Results := { venues : option (list Venue) }.

Record FindData := { results : option Results }.

(** The dict appended for one slot group. *)
Definition slot_of_group (slot_group : SlotGroup) : Resy.Slot :=
  {| Resy.config_id := config slot_group ≫= id;
     Resy.token := config slot_group ≫= token;
     Resy.time := date slot_group ≫= start;
     Resy.type := config slot_group ≫= type |}.

(** The two nested [for] loops of [find_available_slots]. *)
Fixpoint collect_slots (venues : list Venue) : list Resy.Slot :=
  match venues with
  | [] => []
  | venue :: rest =>
      List.map slot_of_group (default [] (slots venue)) ++ collect_slots rest
  end.

(** [find_available_slots], applied to what [client.get] does. *)
Definition find_available_slots (reply : PyResult (Response FindData))
  : PyResult (list Resy.Slot) :=
  match reply with
  | Raises e => Raises e
  | Returns resp =>
      if status_code resp =? 401 then Returns []
      else if negb (status_code resp =? 200) then Returns []
      else
        match json resp with
        | Raises e => Raises e
        | Returns data =>
            match results data ≫= venues with
            | None | Some [] => Returns []
            | Some venues => Returns (collect_slots venues)
            end
        end
  end.

(** The payload of [GET /3/details]. *)
Record BookToken := {
  value : option string;
  date_starts : option string;
}.

Record Display := { policy : option string }.

Record Cancellation := { display : option Display }.

Record DetailsData := {
  book_token : option BookToken;
  cancellation : option Cancellation;
}.

Definition get_slot_details (reply : PyResult (Response DetailsData))
  : PyResult (option ResyApi.SlotDetails) :=
  match reply with
  | Raises e => Raises e
  | Returns resp =>
      if negb (status_code resp =? 200) then Returns None
      else
        match json resp with
        | Raises e => Raises e
        | Returns data =>
            Returns (Some
              {| ResyApi.book_token := book_token data ≫= value;
                 ResyApi.date_starts := book_token data ≫= date_starts;
                 ResyApi.cancellation_policy :=
                   (cancellation data ≫= display) ≫= policy |})
        end
  end.

(** The payload of [POST /3/book]. *)
Record BookData := {
  resy_token : option string;
  reservation_id : option string;
}.

(** [book_slot]; the [raw] entry keeps the body text of the reply. *)
Definition book_slot (reply : PyResult (Response BookData))
  : PyResult ResyApi.BookResult :=
  match reply with
  | Raises e => Raises e
  | Returns resp =>
      if negb (status_code resp =? 200)
      then Returns (ResyApi.failure (text resp))
      else
        match json resp with
        | Raises e => Raises e
        | Returns data =>
            Returns {| ResyApi.success := true; ResyApi.error := None;
                       ResyApi.resy_token := resy_token data;
                       ResyApi.reservation_id := reservation_id data;
                       ResyApi.raw := Some (text resp);
                       ResyApi.booked_time := None |}
        end
  end.

(** What the Resy server answers to the three requests of one
    [search_and_book]. *)
Record Server := {
  on_find : string → string → Z → PyResult (Response FindData);
  on_details : option string → string → Z → PyResult (Response DetailsData);
  on_book : string → PyResult (Response BookData);
}.

Definition exchange_with (server : Server) : ResyApi.Exchange :=
  {| ResyApi.find_available_slots := λ venue_id date party_size,
       find_available_slots (on_find server venue_id date party_size);
     ResyApi.get_slot_details := λ config_id date party_size,
       get_slot_details (on_details server config_id date party_size);
     ResyApi.book_slot := λ book_token, book_slot (on_book server book_token) |}.

End ResyHttp.

(* ====================================================================== *)
(** ** services/gmail_monitor.py: sender classification *)
(* ====================================================================== *)

Module GmailMonitor.

Definition RESY_SENDERS : list string :=
  ["notify@resy.com"; "no-reply@resy.com"].

Definition OPENTABLE_SENDERS : list string :=
  ["notifications@opentable.com"; "no-reply@opentable.com"].

(** Each [for] loop returns at the first sender found in the lowercased
    address. *)
Definition _identify_platform (from_addr : string) : option string :=
  let from_lower := PyStr.lower from_addr in
  if existsb (λ sender, PyStr.contains sender from_lower) RESY_SENDERS
  then Some "resy"
  else if existsb (λ sender, PyStr.contains sender from_lower) OPENTABLE_SENDERS
  then Some "opentable"
  else None.

End GmailMonitor.

(* ====================================================================== *)
(** ** routers/status.py *)
(* ====================================================================== *)

Module Status.

Record StatusOut := {
  total_requests : nat;
  active_snipers : nat;
  total_bookings : nat;
}.

(** [GET /api/status]: three [count] queries. *)
Definition system_status (st : Store) : StatusOut :=
  {| total_requests := size (requests st);
     active_snipers :=
       size (filter (λ row : Z * ReservationRequest.t,
                       ReservationRequest.status row.2 ∈ ["waiting"; "polling"])
                    (requests st));
     total_bookings := List.length (bookings st) |}.

End Status.

(* ====================================================================== *)
(** ** Further vocabulary *)
(* ====================================================================== *)

(** The platform column of a request, if the row exists. *)
Definition platform_of (request_id : Z) (s : State) : option (option string) :=
  ReservationRequest.platform <$> requests (store s) !! request_id.

(** Two versions of one request row: the attributes fixed at creation
    agree, a venue id that was set has stayed, and the poll counter has
    not gone down. *)
Definition akin (r r' : ReservationRequest.t) : Prop :=
  ReservationRequest.restaurant_name r' = ReservationRequest.restaurant_name r
  ∧ ReservationRequest.date r' = ReservationRequest.date r
  ∧ ReservationRequest.time r' = ReservationRequest.time r
  ∧ ReservationRequest.party_size r' = ReservationRequest.party_size r
  ∧ ReservationRequest.contact_email r' = ReservationRequest.contact_email r
  ∧ ReservationRequest.booking_open_time r'
    = ReservationRequest.booking_open_time r
  ∧ ReservationRequest.max_poll_duration_secs r'
    = ReservationRequest.max_poll_duration_secs r
  ∧ (truthy (ReservationRequest.venue_id r) = true →
     ReservationRequest.venue_id r' = ReservationRequest.venue_id r)
  ∧ ReservationRequest.poll_attempts r ≤ ReservationRequest.poll_attempts r'.

(** From [s] to [s'] only the row of [request_id] may have changed, into an
    [akin] version of itself; the subscriptions are the same. *)
Definition evolves (request_id : Z) (s s' : State) : Prop :=
  subscriptions (store s') = subscriptions (store s)
  ∧ ∃ r r',
      requests (store s) !! request_id = Some r
      ∧ requests (store s') = <[request_id := r']> (requests (store s))
      ∧ akin r r'.

(** A confirmed Resy booking of the request. *)
Definition confirmed_for (request_id : Z) (b : Booking.t) : Prop :=
  Booking.request_id b = request_id
  ∧ Booking.status b = "confirmed"
  ∧ Booking.platform b = "resy".

(** The n-th scripted round trip can end in a booking: for some arguments
    [search_and_book] reports success. *)
Definition can_book (resy : nat → Attempt) (n : nat) : Prop :=
  ∃ venue date time party_size result,
    ResyApi.search_and_book (exchange (resy n)) venue date time party_size
    = Returns result
    ∧ ResyApi.success result = true.

(** The run from [s] to [s'] booked the request: status and platform are
    set, exactly one Booking row was appended, and one of the round trips
    made during the run could end in a booking. *)
Definition booked_by (resy : nat → Attempt) (request_id : Z) (s s' : State)
  : Prop :=
  status_of request_id s' = Some "booked"
  ∧ platform_of request_id s' = Some (Some "resy")
  ∧ (∃ b, bookings (store s') = bookings (store s) ++ [b]
          ∧ confirmed_for request_id b)
  ∧ ∃ n, (attempts s ≤ n < attempts s')%nat ∧ can_book resy n.

(** The run from [s] to [s'] did not book: the status it leaves satisfies
    [final], the platform column and the bookings table are as before. *)
Definition gave_up (final : string → Prop) (request_id : Z) (s s' : State)
  : Prop :=
  (∃ status, status_of request_id s' = Some status ∧ final status)
  ∧ platform_of request_id s' = platform_of request_id s
  ∧ bookings (store s') = bookings (store s).

(** The poll counter update of the sniper loop. *)
Definition bump_poll_attempts (request_id : Z) (s : State) : State :=
  match requests (store s) !! request_id with
  | Some request =>
      set_store
        (set_requests
           (<[request_id :=
                ReservationRequest.set_poll_attempts
                  (ReservationRequest.poll_attempts request + 1) request]>
              (requests (store s)))
           (store s)) s
  | None => s
  end.

(** The state in which [_try_resy] reaches its last block when the venue
    id of the request was already known: "resy_search" is logged, one
    scripted reply is used up and the round trip has taken its time. *)
Definition searched (resy : nat → Attempt) (request_id : Z) (s : State) : State :=
  advance (Z.of_N (elapsed (resy (attempts s))))
    (next_attempt
       (set_store
          (add_log {| ActivityLog.request_id := Some request_id;
                      ActivityLog.action := "resy_search";
                      ActivityLog.platform := Some "resy";
                      ActivityLog.details := None |} (store s)) s)).

(** A status that the guards of the orchestrator do not protect. *)
Definition unguarded (status : string) : Prop :=
  status ≠ "booked" ∧ status ≠ "cancelled".

(** The three statuses a submit run can end in. *)
Definition settled (status : string) : Prop :=
  status = "booked" ∨ status = "failed" ∨ status = "no_availability".

(** [n] retry requests, each answered before the next is sent. *)
Definition retries (resy : nat → Attempt) (request_id : Z) (n : nat)
    (s : State) : State :=
  Nat.iter n (run (Reservations.retry_reservation resy request_id)) s.

(** A server with one free table at 19:15 that accepts the booking. *)
Definition sample_server : ResyHttp.Server :=
  {| ResyHttp.on_find := λ _ _ _,
       Returns
         {| ResyHttp.status_code := 200; ResyHttp.text := "";
            ResyHttp.json := Returns
              {| ResyHttp.results := Some
                   {| ResyHttp.venues := Some
                        [{| ResyHttp.slots := Some
                              [{| ResyHttp.config := Some
                                    {| ResyHttp.id := Some "c1";
                                       ResyHttp.token := Some "t1";
                                       ResyHttp.type := None |};
                                  ResyHttp.date := Some
                                    {| ResyHttp.start :=
                                         Some "2025-06-01 19:15:00" |}
                               |}] |}] |} |} |};
     ResyHttp.on_details := λ _ _ _,
       Returns
         {| ResyHttp.status_code := 200; ResyHttp.text := "";
            ResyHttp.json := Returns
              {| ResyHttp.book_token := Some
                   {| ResyHttp.value := Some "bt";
                      ResyHttp.date_starts := None |};
                 ResyHttp.cancellation := None |} |};
     ResyHttp.on_book := λ _,
       Returns
         {| ResyHttp.status_code := 200; ResyHttp.text := "{}";
            ResyHttp.json := Returns
              {| ResyHttp.resy_token := Some "R-abc";
                 ResyHttp.reservation_id := None |} |} |}.

(** A server whose token has expired. *)
Definition expired_server : ResyHttp.Server :=
  {| ResyHttp.on_find := λ _ _ _,
       Returns {| ResyHttp.status_code := 401; ResyHttp.text := "";
                  ResyHttp.json := Raises "JSONDecodeError" |};
     ResyHttp.on_details := λ _ _ _, Raises "ConnectError";
     ResyHttp.on_book := λ _, Raises "ConnectError" |}.

(* ====================================================================== *)
(** ** Slot selection: lemmas *)
(* ====================================================================== *)

Example time_diff_plain :
  Resy.time_diff "19:00" (Resy.Build_Slot None None (Some "19:30") None) = 30.
Proof. reflexivity. Qed.

Example time_diff_dated :
  Resy.time_diff "19:00"
    (Resy.Build_Slot None None (Some "2024-01-15 18:15:00") None) = 45.
Proof. reflexivity. Qed.

Example time_diff_garbage :
  Resy.time_diff "19:00" (Resy.Build_Slot None None (Some "soon") None) = 9999.
Proof. reflexivity. Qed.

Section MinBy.
Context {A : Type} (key : A → Z).

Lemma min_by_first_minimum (rest : list A) : ∀ best,
  ∃ pre post,
    best :: rest = pre ++ Resy.min_by key best rest :: post
    ∧ (∀ x, x ∈ pre → key (Resy.min_by key best rest) < key x)
    ∧ (∀ x, x ∈ post → key (Resy.min_by key best rest) ≤ key x).
Proof.
  induction rest as [|x rest IH]; intros best; simpl.
  - exists [], []. split; [done|]. split; intros y Hy; inversion Hy.
  - destruct (Z.ltb_spec (key x) (key best)) as [Hlt|Hge].
    + destruct (IH x) as (pre & post & Heq & Hpre & Hpost).
      exists (best :: pre), post. split; [by rewrite Heq|].
      split; [|done].
      intros y Hy. apply elem_of_cons in Hy as [->|Hy]; [|by apply Hpre].
      assert (x ∈ pre ++ Resy.min_by key x rest :: post) as Hx
        by (rewrite <- Heq; left).
      apply elem_of_app in Hx as [Hx|Hx].
      * specialize (Hpre _ Hx). lia.
      * apply elem_of_cons in Hx as [Hx|Hx].
        -- rewrite <- Hx. lia.
        -- specialize (Hpost _ Hx). lia.
    + destruct (IH best) as (pre & post & Heq & Hpre & Hpost).
      destruct pre as [|p pre]; simpl in Heq.
      * injection Heq as Hb Hr. exists [], (x :: post).
        split; [simpl; congruence|].
        split; [intros y Hy; inversion Hy|].
        intros y Hy. apply elem_of_cons in Hy as [->|Hy]; [|by apply Hpost].
        rewrite <- Hb. lia.
      * injection Heq as Hb Hr. subst p.
        exists (best :: x :: pre), post.
        split; [simpl; by rewrite <- Hr|].
        split; [|done].
        assert (key (Resy.min_by key best rest) < key best) as Hlt
          by (apply Hpre; left).
        intros y Hy. apply elem_of_cons in Hy as [->|Hy]; [done|].
        apply elem_of_cons in Hy as [->|Hy]; [lia|].
        apply Hpre. by right.
Qed.
End MinBy.

Lemma py_int_two_digits (n : nat) :
  (n < 100)%nat → PyStr.py_int (Clock.two_digits n) = Some (Z.of_nat n).
Proof.
  intros Hn.
  do 100 (destruct n as [|n]; [reflexivity|]). lia.
Qed.

Lemma digit_char_not_space (d : nat) : Ascii.eqb (Clock.digit_char d) " " = false.
Proof. do 9 (destruct d as [|d]; [reflexivity|]). reflexivity. Qed.

Lemma contains_space_cons (c : ascii) (s : string) :
  PyStr.contains " " (String c s) = Ascii.eqb c " " || PyStr.contains " " s.
Proof.
  cbn [PyStr.contains String.prefix].
  destruct (ascii_dec " " c) as [<-|Hne].
  - by destruct s.
  - destruct (Ascii.eqb_spec c " ") as [->|_]; [done|reflexivity].
Qed.

Lemma time_part_hhmm (h m : nat) : Resy.time_part (Clock.hhmm h m) = Clock.hhmm h m.
Proof.
  unfold Resy.time_part, Clock.hhmm, Clock.two_digits.
  rewrite !contains_space_cons, !digit_char_not_space. reflexivity.
Qed.

Lemma time_diff_hhmm (ph pm h m : nat) (s : Resy.Slot) :
  (ph < 100)%nat → (pm < 100)%nat → (h < 100)%nat → (m < 100)%nat →
  Resy.time s = Some (Clock.hhmm h m) →
  Resy.time_diff (Clock.hhmm ph pm) s
  = Z.abs ((Z.of_nat h * 60 + Z.of_nat m) - (Z.of_nat ph * 60 + Z.of_nat pm)).
Proof.
  intros Hph Hpm Hh Hm Ht. unfold Resy.time_diff. rewrite Ht.
  rewrite time_part_hhmm.
  change (PyStr.slice 0 2 (Clock.hhmm h m)) with (Clock.two_digits h).
  change (PyStr.slice 3 5 (Clock.hhmm h m)) with (Clock.two_digits m).
  change (PyStr.slice 0 2 (Clock.hhmm ph pm)) with (Clock.two_digits ph).
  change (PyStr.slice 3 5 (Clock.hhmm ph pm)) with (Clock.two_digits pm).
  rewrite !py_int_two_digits by done.
  reflexivity.
Qed.

Lemma append_nil (s : string) : ("" ++ s)%string = s.
Proof. reflexivity. Qed.

Lemma append_cons (c : ascii) (s t : string) :
  (String c s ++ t)%string = String c (s ++ t).
Proof. reflexivity. Qed.

Lemma contains_space_app (before tail : string) :
  PyStr.contains " " (before ++ String " " tail) = true.
Proof.
  induction before as [|c before IH].
  - by rewrite append_nil, contains_space_cons.
  - rewrite append_cons, contains_space_cons, IH. apply orb_true_r.
Qed.

Lemma split_no_space (tail : string) :
  PyStr.contains " " tail = false → PyStr.split " " tail = [tail].
Proof.
  induction tail as [|c tail IH]; [done|].
  rewrite contains_space_cons. intros [Hc Ht]%orb_false_iff.
  cbn [PyStr.split]. by rewrite Hc, IH.
Qed.

Lemma split_after_space (before tail : string) :
  PyStr.contains " " tail = false →
  ∃ w ws, PyStr.split " " (before ++ String " " tail) = w :: ws ++ [tail].
Proof.
  intros Ht. induction before as [|c before (w & ws & IH)].
  - exists EmptyString, []. rewrite append_nil.
    cbn [PyStr.split]. by rewrite split_no_space.
  - rewrite append_cons. cbn [PyStr.split]. rewrite IH. destruct (Ascii.eqb c " ").
    + by exists EmptyString, (w :: ws).
    + by exists (String c w), ws.
Qed.

Lemma last_item_split (before tail : string) :
  PyStr.contains " " tail = false →
  PyStr.last_item (PyStr.split " " (before ++ String " " tail)) = tail.
Proof.
  intros Ht. destruct (split_after_space before tail Ht) as (w & ws & ->).
  unfold PyStr.last_item. rewrite app_comm_cons. apply last_last.
Qed.

Lemma contains_space_hhmm (h m : nat) (rest : string) :
  PyStr.contains " " rest = false →
  PyStr.contains " " (Clock.hhmm h m ++ rest) = false.
Proof.
  intros Hrest. unfold Clock.hhmm, Clock.two_digits.
  rewrite !append_cons, append_nil.
  by rewrite !contains_space_cons, !digit_char_not_space, Hrest.
Qed.

(** The clock part of every slot time that shows [h]:[m] is "HH:MM". *)
Lemma time_part_shows_clock (h m : nat) (slot_time : string) :
  shows_clock h m slot_time → Resy.time_part slot_time = Clock.hhmm h m.
Proof.
  intros (rest & Hrest & [-> | (date & ->)]); unfold Resy.time_part.
  - rewrite contains_space_hhmm by done. by destruct rest.
  - change (date ++ " " ++ Clock.hhmm h m ++ rest)%string
      with (date ++ String " " (Clock.hhmm h m ++ rest))%string.
    rewrite contains_space_app, last_item_split
      by by apply contains_space_hhmm.
    by destruct rest.
Qed.

Lemma shows_clock_not_empty (h m : nat) (slot_time : string) :
  shows_clock h m slot_time → slot_time ≠ "".
Proof.
  intros (rest & _ & [-> | (date & ->)]); [done|]. by destruct date.
Qed.

Lemma time_diff_shows_clock (ph pm h m : nat) (s : Resy.Slot)
    (slot_time : string) :
  (ph < 100)%nat → (pm < 100)%nat → (h < 100)%nat → (m < 100)%nat →
  Resy.time s = Some slot_time → shows_clock h m slot_time →
  Resy.time_diff (Clock.hhmm ph pm) s
  = Z.abs ((Z.of_nat h * 60 + Z.of_nat m) - (Z.of_nat ph * 60 + Z.of_nat pm)).
Proof.
  intros Hph Hpm Hh Hm Ht Hshows. unfold Resy.time_diff. rewrite Ht.
  pose proof (shows_clock_not_empty _ _ _ Hshows) as Hne.
  destruct slot_time as [|c slot_time]; [done|].
  rewrite (time_part_shows_clock h m) by done.
  change (PyStr.slice 0 2 (Clock.hhmm h m)) with (Clock.two_digits h).
  change (PyStr.slice 3 5 (Clock.hhmm h m)) with (Clock.two_digits m).
  change (PyStr.slice 0 2 (Clock.hhmm ph pm)) with (Clock.two_digits ph).
  change (PyStr.slice 3 5 (Clock.hhmm ph pm)) with (Clock.two_digits pm).
  rewrite !py_int_two_digits by done.
  reflexivity.
Qed.

(* ====================================================================== *)
(** ** Every coroutine only moves forward, and the sniper terminates *)
(* ====================================================================== *)

Import Orchestrator.

Lemma extends_refl s : extends s s.
Proof. repeat split; try lia; done. Qed.

Lemma extends_trans s1 s2 s3 : extends s1 s2 → extends s2 s3 → extends s1 s3.
Proof.
  intros (?&?&?&?) (?&?&?&?). repeat split; try lia; by etrans.
Qed.

Section Steady.
Context {A B : Type}.

Lemma steady_ret (a : A) : steady (ret a).
Proof. intros s. apply extends_refl. Qed.

Lemma steady_raise (e : string) : steady (@raise A e).
Proof. intros s. apply extends_refl. Qed.

Lemma steady_out_of_fuel : steady (@out_of_fuel A).
Proof. intros s. apply extends_refl. Qed.

Lemma steady_lift (r : PyResult A) : steady (lift r).
Proof. destruct r; [apply steady_ret | apply steady_raise]. Qed.

Lemma steady_bind (m : M A) (k : A → M B) :
  steady m → (∀ a, steady (k a)) → steady (bind m k).
Proof.
  intros Hm Hk s. unfold bind. specialize (Hm s).
  destruct (m s) as [[a|e|] s'] eqn:E; simpl in *; [|done..].
  eapply extends_trans; [exact Hm | apply Hk].
Qed.

Lemma steady_try_except (body handler : M A) :
  steady body → steady handler → steady (try_except body handler).
Proof.
  intros Hb Hh s. unfold try_except. specialize (Hb s).
  destruct (body s) as [[a|e|] s'] eqn:E; simpl in *; [done| |done].
  eapply extends_trans; [exact Hb | apply Hh].
Qed.

Lemma total_ret (a : A) : total (ret a).
Proof. by intros s. Qed.

Lemma total_raise (e : string) : total (@raise A e).
Proof. by intros s. Qed.

Lemma total_lift (r : PyResult A) : total (lift r).
Proof. by destruct r. Qed.

Lemma total_bind (m : M A) (k : A → M B) :
  total m → (∀ a, total (k a)) → total (bind m k).
Proof.
  intros Hm Hk s. unfold bind. specialize (Hm s).
  destruct (m s) as [[a|e|] s'] eqn:E; simpl in *; [apply Hk|done..].
Qed.
End Steady.

Lemma bind_not_stuck {A B} (m : M A) (k : A → M B) s :
  (m s).1 ≠ OutOfFuel →
  (∀ a s', m s = (Done a, s') → (k a s').1 ≠ OutOfFuel) →
  (bind m k s).1 ≠ OutOfFuel.
Proof.
  intros Hm Hk. unfold bind.
  destruct (m s) as [[a|e|] s'] eqn:E; simpl in *; [by eapply Hk|done..].
Qed.

Lemma steady_run {A} (m : M A) s o s' : steady m → m s = (o, s') → extends s s'.
Proof. intros Hm E. specialize (Hm s). by rewrite E in Hm. Qed.

Lemma steady_session_get id : steady (session_get id).
Proof. intros s. apply extends_refl. Qed.
Lemma steady_session_put id r : steady (session_put id r).
Proof. intros s. repeat split; simpl; try lia; done. Qed.
Lemma steady_session_add_log e : steady (session_add_log e).
Proof. intros s. repeat split; simpl; try lia; try done. by apply prefix_app_r. Qed.
Lemma steady_session_add_booking b : steady (session_add_booking b).
Proof. intros s. repeat split; simpl; try lia; try done. by apply prefix_app_r. Qed.
Lemma steady_clock : steady clock.
Proof. intros s. apply extends_refl. Qed.
Lemma steady_sleep ms : 0 ≤ ms → steady (sleep ms).
Proof. intros H s. repeat split; simpl; try lia; done. Qed.
Lemma steady_log id a p d : steady (_log id a p d).
Proof. apply steady_session_add_log. Qed.

Lemma total_session_get id : total (session_get id).
Proof. by intros s. Qed.
Lemma total_session_put id r : total (session_put id r).
Proof. by intros s. Qed.
Lemma total_session_add_log e : total (session_add_log e).
Proof. by intros s. Qed.
Lemma total_session_add_booking b : total (session_add_booking b).
Proof. by intros s. Qed.
Lemma total_clock : total clock.
Proof. by intros s. Qed.
Lemma total_sleep ms : total (sleep ms).
Proof. by intros s. Qed.
Lemma total_log id a p d : total (_log id a p d).
Proof. by intros s. Qed.

Create HintDb steady discriminated.
#[local] Hint Resolve steady_ret steady_raise steady_lift steady_session_get
  steady_session_put steady_session_add_log steady_session_add_booking
  steady_clock steady_log steady_out_of_fuel : steady.
#[local] Hint Resolve total_ret total_raise total_lift total_session_get
  total_session_put total_session_add_log total_session_add_booking
  total_clock total_sleep total_log : steady.

Ltac steady_step :=
  first
    [ solve [auto with steady]
    | apply steady_sleep; lia
    | apply steady_bind; [|intros ?]
    | apply total_bind; [|intros ?]
    | apply steady_try_except
    | case_match ].

Ltac steady_tac := repeat steady_step.

Section WithPlatform.
Variable resy : nat → Attempt.

Lemma steady_resolve_venue_id api r : steady (_resolve_venue_id api r).
Proof. unfold _resolve_venue_id. steady_tac. Qed.
Lemma total_resolve_venue_id api r : total (_resolve_venue_id api r).
Proof. unfold _resolve_venue_id. steady_tac. Qed.

Lemma steady_resy_api : steady (resy_api resy).
Proof. intros s. repeat split; simpl; try lia; done. Qed.
Lemma total_resy_api : total (resy_api resy).
Proof. by intros s. Qed.

Lemma steady_try_resy id : steady (_try_resy resy id).
Proof.
  unfold _try_resy. steady_tac;
    auto using steady_resy_api, steady_resolve_venue_id.
Qed.

Lemma total_try_resy id : total (_try_resy resy id).
Proof.
  unfold _try_resy. steady_tac;
    auto using total_resy_api, total_resolve_venue_id.
Qed.
End WithPlatform.
#[local] Hint Resolve steady_try_resy total_try_resy : steady.

Section Sniper.
Variable resy : nat → Attempt.

Lemma steady_sniper_timed_out id D : steady (sniper_timed_out id D).
Proof. unfold sniper_timed_out. steady_tac. Qed.
Lemma total_sniper_timed_out id D : total (sniper_timed_out id D).
Proof. unfold sniper_timed_out. steady_tac. Qed.
#[local] Hint Resolve steady_sniper_timed_out total_sniper_timed_out : steady.

Lemma steady_poll_loop fuel id start D : steady (poll_loop resy fuel id start D).
Proof.
  induction fuel as [|fuel IH]; cbn [poll_loop]; steady_tac.
Qed.

#[local] Hint Resolve steady_poll_loop : steady.

(** The iteration bound is never the reason the loop stops: each round
    trip moves the clock by at least the 500 ms sleep. *)
Lemma poll_loop_total fuel : ∀ id start D s,
  1000 * D - 500 * Z.of_nat fuel ≤ now s - start →
  (poll_loop resy fuel id start D s).1 ≠ OutOfFuel.
Proof.
  induction fuel as [|fuel IH]; intros id start D s Hbound;
    cbn [poll_loop]; apply bind_not_stuck; [done| |done|];
    intros t s0 [= <- <-];
    destruct (Z.ltb_spec (now s - start) (D * 1000)) as [Hlt|Hge];
    try lia; try apply total_sniper_timed_out.
  apply bind_not_stuck; [done|]. intros req s0 [= <- <-].
  destruct (requests (store s) !! id) as [r|]; [|done].
  destruct (ReservationRequest.status r =? "cancelled")%string; [done|].
  apply bind_not_stuck; [apply total_try_resy|]. intros booked s1 E1.
  apply (steady_run _ _ _ _ (steady_try_resy resy id)) in E1 as (Hnow1 & _).
  destruct booked; [done|].
  apply bind_not_stuck; [steady_tac|]. intros [] s2 E2.
  apply steady_run in E2 as (Hnow2 & _); [|steady_tac].
  apply bind_not_stuck; [done|]. intros [] s3 [= <-].
  apply IH. simpl. lia.
Qed.

Lemma steady_snipe_reservation id : steady (_snipe_reservation resy id).
Proof.
  unfold _snipe_reservation. steady_tac.
Qed.
#[local] Hint Resolve steady_snipe_reservation : steady.

Lemma snipe_reservation_total id s :
  (_snipe_reservation resy id s).1 ≠ OutOfFuel.
Proof.
  unfold _snipe_reservation.
  apply bind_not_stuck; [done|]. intros req s0 [= <- <-].
  destruct (requests (store s) !! id) as [r|]; [|done].
  destruct (ReservationRequest.status r =? "cancelled")%string; [done|].
  apply bind_not_stuck; [done|]. intros t s0 [= <- <-].
  apply bind_not_stuck; [by destruct (ReservationRequest.booking_open_time r)|].
  intros wait s1 _.
  apply bind_not_stuck; [steady_tac|]. intros [] s2 _.
  apply bind_not_stuck; [done|]. intros req s0 [= <- <-].
  destruct (requests (store s2) !! id) as [r2|]; [|done].
  destruct (ReservationRequest.status r2 =? "cancelled")%string; [done|].
  apply bind_not_stuck; [done|]. intros [] s3 _.
  apply bind_not_stuck; [done|]. intros [] s4 _.
  apply bind_not_stuck; [done|]. intros start s0 [= <- <-].
  apply poll_loop_total. lia.
Qed.

Lemma steady_after_immediate_attempt id :
  steady (after_immediate_attempt resy id).
Proof.
  unfold after_immediate_attempt. steady_tac.
Qed.

Lemma after_immediate_attempt_total id s :
  (after_immediate_attempt resy id s).1 ≠ OutOfFuel.
Proof.
  unfold after_immediate_attempt.
  apply bind_not_stuck; [done|]. intros req s0 [= <- <-].
  destruct (requests (store s) !! id) as [r|]; [|done].
  destruct (ReservationRequest.status r =? "cancelled")%string; [done|].
  destruct (ReservationRequest.booking_open_time r);
    [apply snipe_reservation_total|].
  steady_tac.
Qed.

Lemma steady_orchestration_error id : steady (orchestration_error id).
Proof. unfold orchestration_error. steady_tac. Qed.
Lemma total_orchestration_error id : total (orchestration_error id).
Proof. unfold orchestration_error. steady_tac. Qed.

#[local] Hint Resolve steady_after_immediate_attempt
  steady_orchestration_error : steady.

Lemma steady_process_reservation id : steady (process_reservation resy id).
Proof. unfold process_reservation, _update_status. steady_tac. Qed.

Lemma process_reservation_total id s :
  (process_reservation resy id s).1 ≠ OutOfFuel.
Proof.
  unfold process_reservation.
  apply bind_not_stuck; [done|]. intros req s0 [= <- <-].
  destruct (requests (store s) !! id) as [r|]; [|done].
  apply bind_not_stuck; [done|]. intros [] s1 _.
  apply bind_not_stuck; [done|]. intros [] s2 _.
  unfold try_except.
  match goal with |- context [bind ?m ?k s2] =>
    pose proof (bind_not_stuck m k s2 (total_try_resy resy id s2)) as Hb;
    destruct (bind m k s2) as [[[]|e|] s3]
  end; simpl; try done.
  - apply total_orchestration_error.
  - apply Hb. intros booked s4 _. destruct booked; [done|].
    apply after_immediate_attempt_total.
Qed.
End Sniper.
#[local] Hint Resolve steady_sniper_timed_out total_sniper_timed_out
  steady_poll_loop steady_snipe_reservation steady_after_immediate_attempt
  steady_orchestration_error total_orchestration_error
  steady_process_reservation : steady.

(* ====================================================================== *)
(** ** Slot selection *)
(* ====================================================================== *)

Lemma pick_best_slot_first_minimum (slots : list Resy.Slot) (preferred : string) :
  slots ≠ [] →
  ∃ best before after,
    Resy._pick_best_slot slots preferred = Some best
    ∧ slots = before ++ best :: after
    ∧ (∀ s, s ∈ before → Resy.time_diff preferred best < Resy.time_diff preferred s)
    ∧ (∀ s, s ∈ after → Resy.time_diff preferred best ≤ Resy.time_diff preferred s).
Proof.
  destruct slots as [|s0 rest]; [done|intros _].
  destruct (min_by_first_minimum (Resy.time_diff preferred) rest s0)
    as (before & after & Heq & Hb & Ha).
  by exists (Resy.min_by (Resy.time_diff preferred) s0 rest), before, after.
Qed.

(** C7, as amended.  For a non-empty slot list, [_pick_best_slot] returns a
    slot of the list whose distance [time_diff] to the preferred time is
    minimal over all slots; among slots at that same minimal distance it
    returns the one that comes first in the list (every slot before it is
    strictly farther), whatever their clock times.  The distance is the
    absolute difference in minutes between the preferred time HH:MM and
    the clock the slot time shows, be it written "19:30" or, as
    [find_available_slots] delivers it, "2024-01-15 19:30:00". *)
Theorem pick_best_slot_closest_first_listed
    (slots : list Resy.Slot) (preferred : string) :
  slots ≠ [] →
  (∃ best before after,
      Resy._pick_best_slot slots preferred = Some best
      ∧ slots = before ++ best :: after
      ∧ (∀ s, s ∈ slots →
           Resy.time_diff preferred best ≤ Resy.time_diff preferred s)
      ∧ (∀ s, s ∈ before →
           Resy.time_diff preferred best < Resy.time_diff preferred s))
  ∧ (∀ s ph pm h m,
       (ph < 100)%nat → (pm < 100)%nat → (h < 100)%nat → (m < 100)%nat →
       preferred = Clock.hhmm ph pm →
       Resy.time s = Some (Clock.hhmm h m) →
       Resy.time_diff preferred s
       = Z.abs (Clock.minutes h m - Clock.minutes ph pm))
  ∧ (∀ s ph pm h m slot_time,
       (ph < 100)%nat → (pm < 100)%nat → (h < 100)%nat → (m < 100)%nat →
       preferred = Clock.hhmm ph pm →
       Resy.time s = Some slot_time → shows_clock h m slot_time →
       Resy.time_diff preferred s
       = Z.abs (Clock.minutes h m - Clock.minutes ph pm)).
Proof.
  intros Hne. split; [|split].
  - destruct (pick_best_slot_first_minimum slots preferred Hne)
      as (best & before & after & Hpick & Heq & Hb & Ha).
    exists best, before, after. repeat split; try done.
    intros s Hs. rewrite Heq in Hs.
    apply elem_of_app in Hs as [Hs|Hs]; [specialize (Hb _ Hs); lia|].
    apply elem_of_cons in Hs as [->|Hs]; [lia|by apply Ha].
  - intros s ph pm h m ? ? ? ? -> Ht. by apply time_diff_hhmm.
  - intros s ph pm h m slot_time ? ? ? ? -> Ht Hshows.
    by eapply time_diff_shows_clock.
Qed.

Lemma pick_best_slot_closest_first_listed_witness :
  (∃ best,
     Resy._pick_best_slot [Sample.slot_at "19:30"; Sample.slot_at "18:30"] "19:00"
     = Some best
     ∧ Resy.time best = Some "19:30")
  ∧ Resy.time_diff "19:00" (Sample.slot_at "2024-01-15 18:15:00") = 45.
Proof.
  destruct (pick_best_slot_closest_first_listed
              [Sample.slot_at "19:30"; Sample.slot_at "18:30"] "19:00")
    as ((best & before & after & Hpick & _) & _ & Hdated); [done|].
  split.
  - exists best. split; [exact Hpick|].
    vm_compute in Hpick. by injection Hpick as <-.
  - apply (Hdated (Sample.slot_at "2024-01-15 18:15:00")
             19%nat 0%nat 18%nat 15%nat "2024-01-15 18:15:00");
      [lia..|reflexivity|reflexivity|].
    exists ":00". split; [reflexivity|]. right. by exists "2024-01-15".
Defined.

(** C7, as worded, fails: with the slots 19:30 and 18:30 listed in that
    order and 19:00 preferred, both are 30 minutes away and the later one,
    19:30, is returned. *)
Lemma pick_best_slot_tie_keeps_later_slot :
  ¬ ties_go_to_earlier [Sample.slot_at "19:30"; Sample.slot_at "18:30"] "19:00".
Proof.
  intros H.
  specialize (H (Sample.slot_at "19:30") (Sample.slot_at "18:30")
                19%nat 30%nat 18%nat 30%nat).
  assert (Clock.minutes 19 30 ≤ Clock.minutes 18 30) as Hle.
  { apply H; try reflexivity. right. left. }
  vm_compute in Hle. by apply Hle.
Qed.

(** C9.  For every non-empty slot list [_pick_best_slot] returns a slot of
    the list: a slot whose time is missing, empty or not a number gets the
    distance 9999 and stays a candidate.  Hence, whenever
    [find_available_slots] returns a non-empty list, [search_and_book] goes
    on to the details and book requests for that slot and never takes the
    "no_matching_slot" branch. *)
Theorem pick_best_slot_total (slots : list Resy.Slot) (preferred : string)
    (x : ResyApi.Exchange) (venue date : string) (party_size : Z) :
  slots ≠ [] →
  ResyApi.find_available_slots x venue date party_size = Returns slots →
  (∃ best,
      best ∈ slots
      ∧ Resy._pick_best_slot slots preferred = Some best
      ∧ ResyApi.search_and_book x venue date preferred party_size
        = ResyApi.book_best x best date party_size)
  ∧ (∀ s, Resy.time s = None ∨ Resy.time s = Some "" →
          Resy.time_diff preferred s = 9999)
  ∧ (∀ s t, Resy.time s = Some t →
            PyStr.py_int (PyStr.slice 0 2 (Resy.time_part t)) = None
            ∨ PyStr.py_int (PyStr.slice 3 5 (Resy.time_part t)) = None →
            Resy.time_diff preferred s = 9999).
Proof.
  intros Hne Hfind. split; [|split].
  - destruct (pick_best_slot_first_minimum slots preferred Hne)
      as (best & before & after & Hpick & Heq & _).
    exists best. split; [|split; [done|]].
    + rewrite Heq. apply elem_of_app. right. left.
    + unfold ResyApi.search_and_book. rewrite Hfind, Hpick.
      by destruct slots.
  - intros s [Ht|Ht]; unfold Resy.time_diff; by rewrite Ht.
  - intros s t Ht Hbad. unfold Resy.time_diff. rewrite Ht.
    destruct t as [|c t]; [done|].
    destruct Hbad as [-> | ->]; [done|]. by case_match.
Qed.

Lemma pick_best_slot_total_witness :
  ∃ best,
    Resy._pick_best_slot [Sample.slot_at "soon"; Sample.slot_at ""] "19:00"
    = Some best.
Proof.
  destruct (pick_best_slot_total
              [Sample.slot_at "soon"; Sample.slot_at ""] "19:00"
              {| ResyApi.find_available_slots := λ _ _ _,
                   Returns [Sample.slot_at "soon"; Sample.slot_at ""];
                 ResyApi.get_slot_details := λ _ _ _, Returns None;
                 ResyApi.book_slot := λ _, Returns Sample.confirmation |}
              "123" "2025-06-01" 2)
    as [(best & _ & Hpick & _) _]; [done|reflexivity|].
  by exists best.
Defined.

(* ====================================================================== *)
(** ** Bookings and request status *)
(* ====================================================================== *)

Ltac run_monad :=
  unfold bind, ret, raise, lift, session_get, session_put,
    session_add_booking, session_add_log, _log, _update_status, sleep,
    resy_api, _resolve_venue_id, deactivate_subscriptions, clock in *;
  cbn [fst snd store bookings activity_log requests subscriptions now attempts
       set_store add_booking add_log set_requests set_subscriptions advance
       next_attempt] in *.

Lemma confirmed_bookings_app (id : Z) (st : Store) (b : Booking.t) (bs : list Booking.t) :
  bookings st = bs ++ [b] →
  Booking.request_id b = id → Booking.status b = "confirmed" →
  confirmed_bookings id st
  = S (List.length (filter (λ b, Booking.request_id b = id
                                 ∧ Booking.status b = "confirmed") bs)).
Proof.
  intros Hb Hid Hst. unfold confirmed_bookings.
  rewrite Hb, filter_app, length_app, filter_cons_True by done. simpl. lia.
Qed.

(** What one call of [_try_resy] does to the bookings table. *)
Lemma try_resy_rows (resy : nat → Attempt) (id : Z) (s : State) :
  match (_try_resy resy id s).1 with
  | Done true =>
      ∃ b, bookings (store (run (_try_resy resy id) s)) = bookings (store s) ++ [b]
           ∧ Booking.request_id b = id
           ∧ Booking.status b = "confirmed"
           ∧ Booking.platform b = "resy"
           ∧ status_of id (run (_try_resy resy id) s) = Some "booked"
  | _ => bookings (store (run (_try_resy resy id) s)) = bookings (store s)
  end.
Proof.
  unfold run, status_of, _try_resy. run_monad.
  repeat (case_match; run_monad; simplify_eq/=); try done.
  all: eexists; repeat split; try done; by rewrite lookup_insert_eq.
Qed.

(** C1, as amended.  One call of [_try_resy] inserts at most one Booking
    row: exactly one, with status "confirmed" and platform "resy", when it
    returns [True], and none otherwise.  The commit transaction reloads the
    Request but does not look at its status: whenever the row exists, its
    venue is known and [search_and_book] reports success with a booked time
    that is not null, the call returns [True], sets the status to "booked"
    and inserts the Booking with that time, also when the status was
    "booked" already.  (With a null booked time the insert violates the
    NOT NULL constraint of [bookings.time]: the call raises, and neither
    the Booking nor the status is written.)  The number of confirmed
    Bookings of a Request is therefore the number of [_try_resy] calls
    made for it that returned [True]. *)
Theorem try_resy_inserts_one_booking_per_success
    (resy : nat → Attempt) (id : Z) (s : State) :
  let s' := run (_try_resy resy id) s in
  confirmed_bookings id (store s')
  = (confirmed_bookings id (store s)
     + match (_try_resy resy id s).1 with Done true => 1 | _ => 0 end)%nat
  ∧ match (_try_resy resy id s).1 with
    | Done true =>
        ∃ b, bookings (store s') = bookings (store s) ++ [b]
             ∧ Booking.request_id b = id
             ∧ Booking.status b = "confirmed"
             ∧ Booking.platform b = "resy"
    | _ => bookings (store s') = bookings (store s)
    end
  ∧ (∀ r venue result,
       requests (store s) !! id = Some r →
       ReservationRequest.venue_id r = Some venue → venue ≠ "" →
       ResyApi.search_and_book (exchange (resy (attempts s))) venue
         (ReservationRequest.date r) (ReservationRequest.time r)
         (ReservationRequest.party_size r) = Returns result →
       ResyApi.success result = true →
       match booking_time result r with
       | Some booked =>
           (_try_resy resy id s).1 = Done true
           ∧ status_of id s' = Some "booked"
           ∧ ∃ b, bookings (store s') = bookings (store s) ++ [b]
                  ∧ Booking.request_id b = id
                  ∧ Booking.status b = "confirmed"
                  ∧ Booking.platform b = "resy"
                  ∧ Booking.time b = booked
       | None =>
           (_try_resy resy id s).1 = Raised "IntegrityError"
           ∧ status_of id s' = Some (ReservationRequest.status r)
           ∧ bookings (store s') = bookings (store s)
       end).
Proof.
  intros s'. split; [|split].
  - pose proof (try_resy_rows resy id s) as H. subst s'.
    destruct (_try_resy resy id s).1 as [[|]|e|];
      try (unfold confirmed_bookings; rewrite H; lia).
    destruct H as (b & Happ & Hid & Hst & _).
    rewrite (confirmed_bookings_app id _ b (bookings (store s))) by done.
    unfold confirmed_bookings. lia.
  - pose proof (try_resy_rows resy id s) as H. subst s'.
    destruct (_try_resy resy id s).1 as [[|]|e|]; try done.
    destruct H as (b & Happ & Hid & Hst & Hp & _). by exists b.
  - intros r venue result Hr Hv Hne Hbook Hok. subst s'.
    unfold run, status_of, _try_resy. run_monad. rewrite Hr. cbn.
    rewrite Hv. destruct venue as [|c venue]; [done|]. cbn.
    rewrite Hbook. cbn. rewrite Hr, Hok.
    destruct (booking_time result r) as [booked|]; cbn.
    + rewrite lookup_insert_eq. repeat split. by eexists.
    + by rewrite Hr.
Qed.

Lemma try_resy_inserts_one_booking_per_success_witness :
  status_of 1 (run (_try_resy Sample.always_books 1)
                 (Sample.state_of (Sample.carbone "booked" None) []))
  = Some "booked".
Proof.
  pose proof (try_resy_inserts_one_booking_per_success Sample.always_books 1
                (Sample.state_of (Sample.carbone "booked" None) [])) as (_ & _ & H).
  specialize (H (Sample.carbone "booked" None) "123"
                (ResyApi.with_booked_time (Some "19:00") Sample.confirmation)).
  destruct H as (_ & Hst & _);
    [reflexivity|reflexivity|done|reflexivity|reflexivity|].
  exact Hst.
Defined.

(** C1, as worded, fails.  From a pending request with a platform that
    always books: [process_reservation] books it (one confirmed Booking);
    after a cancel and a retry a second confirmed Booking is inserted for
    the same Request, the first one still being "confirmed".  And on the
    state where the Request is "booked", a further [_try_resy] does not
    refuse: it inserts a second confirmed Booking too. *)
Lemma second_confirmed_booking_inserted :
  let s1 := run (process_reservation Sample.always_books 1)
              (Sample.state_of (Sample.carbone "pending" None) []) in
  let s2 := run (Reservations.cancel_reservation 1) s1 in
  let s3 := run (Reservations.retry_reservation Sample.always_books 1) s2 in
  status_of 1 s1 = Some "booked"
  ∧ confirmed_bookings 1 (store s1) = 1%nat
  ∧ ¬ (confirmed_bookings 1 (store s3) ≤ 1)%nat
  ∧ ¬ (confirmed_bookings 1 (store (run (_try_resy Sample.always_books 1) s1))
       ≤ 1)%nat.
Proof.
  vm_compute. repeat split; try reflexivity; intros H; lia.
Qed.

(** C2, as amended.  A Request that is "booked" is left untouched by the
    retry transaction (which answers 400), and one that is "booked" or
    "cancelled" is left untouched by the error handler of
    [process_reservation] and by the sniper's timeout block.
    The cancel operation has no such test: from every status, "booked"
    included, it sets the status to "cancelled" and deactivates the
    subscriptions of the Request, changing no other column (platform and
    venue_id stay as they were). *)
Theorem booked_is_guarded_except_from_cancel
    (id : Z) (s : State) (r : ReservationRequest.t) :
  requests (store s) !! id = Some r →
  (ReservationRequest.status r = "booked" →
     ∃ e, Reservations.retry_transaction id s = (Raised e, s))
  ∧ (ReservationRequest.status r = "booked"
     ∨ ReservationRequest.status r = "cancelled" →
       orchestration_error id s = (Done tt, s)
       ∧ (∀ d, sniper_timed_out id d s = (Done tt, s)))
  ∧ (Reservations.cancel_reservation id s).1 = Done "cancelled"
  ∧ requests (store (run (Reservations.cancel_reservation id) s))
    = <[id := ReservationRequest.set_status "cancelled" r]> (requests (store s))
  ∧ (∀ sub, sub ∈ subscriptions (store (run (Reservations.cancel_reservation id) s)) →
       NotificationSubscription.request_id sub = id →
       NotificationSubscription.active sub = false).
Proof.
  intros Hr. repeat split.
  - intros Hb. eexists. unfold Reservations.retry_transaction. run_monad.
    by rewrite Hr, Hb.
  - unfold orchestration_error. run_monad. rewrite Hr.
    by destruct H as [-> | ->].
  - intros d. unfold sniper_timed_out. run_monad. rewrite Hr.
    by destruct H as [-> | ->].
  - unfold Reservations.cancel_reservation. run_monad. by rewrite Hr.
  - unfold run, Reservations.cancel_reservation. run_monad. by rewrite Hr.
  - unfold run, Reservations.cancel_reservation. run_monad. rewrite Hr. cbn.
    intros sub Hsub Hid.
    apply list_elem_of_fmap in Hsub as (sub0 & -> & _).
    case_decide as Hd; [done|].
    by destruct Hd.
Qed.

Lemma booked_is_guarded_except_from_cancel_witness :
  requests (store (run (Reservations.cancel_reservation 1)
                     (Sample.state_of (Sample.carbone "booked" None) [])))
  = <[1 := ReservationRequest.set_status "cancelled" (Sample.carbone "booked" None)]>
      (requests (store (Sample.state_of (Sample.carbone "booked" None) []))).
Proof.
  destruct (booked_is_guarded_except_from_cancel 1
              (Sample.state_of (Sample.carbone "booked" None) [])
              (Sample.carbone "booked" None))
    as (_ & _ & _ & H & _); [reflexivity|].
  exact H.
Defined.

(** C2, as worded, fails: cancelling the Request that
    [process_reservation] has just booked changes its status from "booked"
    to "cancelled". *)
Lemma cancel_overwrites_booked :
  let booked := run (process_reservation Sample.always_books 1)
                  (Sample.state_of (Sample.carbone "pending" None) []) in
  status_of 1 booked = Some "booked"
  ∧ status_of 1 (run (Reservations.cancel_reservation 1) booked) ≠ Some "booked".
Proof. vm_compute. split; [reflexivity|discriminate]. Qed.

(** C6, as amended.  [_update_status] is an unconditional assignment: for
    every row and every status string it returns normally and leaves the
    row with exactly that status, every other column and every other row
    as before.  No transition table is consulted and nothing is ever
    rejected; the retry transaction likewise moves every status other than
    "booked" back to "pending". *)
Theorem update_status_is_unconditional
    (id : Z) (r : ReservationRequest.t) (status : string) (s : State) :
  (_update_status id r status s).1 = Done tt
  ∧ requests (store (run (_update_status id r status) s)) !! id
    = Some (ReservationRequest.set_status status r)
  ∧ status_of id (run (_update_status id r status) s) = Some status
  ∧ (∀ id', id' ≠ id →
       requests (store (run (_update_status id r status) s)) !! id'
       = requests (store s) !! id')
  ∧ (requests (store s) !! id = Some r →
     ReservationRequest.status r ≠ "booked" →
     status_of id (run (Reservations.retry_transaction id) s) = Some "pending").
Proof.
  unfold run, status_of, _update_status. run_monad. repeat split.
  - by rewrite lookup_insert_eq.
  - by rewrite lookup_insert_eq.
  - intros id' Hne. by rewrite lookup_insert_ne.
  - intros Hr Hnb. unfold Reservations.retry_transaction. run_monad.
    rewrite Hr. cbn.
    destruct (String.eqb_spec (ReservationRequest.status r) "booked"); [done|].
    cbn. by rewrite lookup_insert_eq.
Qed.

Lemma update_status_is_unconditional_witness :
  status_of 1 (run (Reservations.retry_transaction 1)
                 (Sample.state_of (Sample.carbone "no_availability" None) []))
  = Some "pending".
Proof.
  destruct (update_status_is_unconditional 1
              (Sample.carbone "no_availability" None) "searching"
              (Sample.state_of (Sample.carbone "no_availability" None) []))
    as (_ & _ & _ & _ & H).
  apply H; [reflexivity|discriminate].
Defined.

(** C6, as worded, fails: the table has no arrow from "booked" to
    "searching", yet [_update_status] performs that update on a booked
    Request and returns normally. *)
Lemma update_status_accepts_illegal_transition :
  let s := Sample.state_of (Sample.carbone "booked" None) [] in
  permitted_transition "booked" "searching" = false
  ∧ (_update_status 1 (Sample.carbone "booked" None) "searching" s).1 = Done tt
  ∧ status_of 1 (run (_update_status 1 (Sample.carbone "booked" None) "searching") s)
    ≠ status_of 1 s.
Proof. vm_compute. repeat split; discriminate. Qed.

(* ====================================================================== *)
(** ** The submit flow *)
(* ====================================================================== *)

Lemma extends_bind_from {A B} (m : M A) (k : A → M B) (s0 s : State) :
  extends s0 (m s).2 → (∀ a, steady (k a)) → extends s0 (bind m k s).2.
Proof.
  intros Hm Hk. unfold bind.
  destruct (m s) as [[a|e|] s1]; simpl in *; [|done..].
  eapply extends_trans; [exact Hm | apply Hk].
Qed.

Lemma extends_try_except_from {A} (body handler : M A) (s0 s : State) :
  extends s0 (body s).2 → steady handler →
  extends s0 (try_except body handler s).2.
Proof.
  intros Hb Hh. unfold try_except.
  destruct (body s) as [[a|e|] s1]; simpl in *; [done| |done].
  eapply extends_trans; [exact Hb | apply Hh].
Qed.

(** A call of [_try_resy] on an existing row logs "resy_search" and uses up
    one scripted reply before anything else. *)
Lemma try_resy_begins (resy : nat → Attempt) (id : Z) (s : State)
    (r : ReservationRequest.t) :
  requests (store s) !! id = Some r →
  extends
    (next_attempt
       (set_store
          (add_log {| ActivityLog.request_id := Some id;
                      ActivityLog.action := "resy_search";
                      ActivityLog.platform := Some "resy";
                      ActivityLog.details := None |} (store s)) s))
    (run (_try_resy resy id) s).
Proof.
  intros Hr. unfold run, _try_resy.
  unfold bind at 1. unfold session_get at 1. cbn [fst snd]. rewrite Hr.
  unfold bind at 1. unfold _log at 1, session_add_log at 1.
  unfold bind at 1. unfold resy_api at 1.
  match goal with |- extends ?s0 (?k ?s0).2 =>
    assert (steady k) as Hk; [|apply Hk] end.
  steady_tac; auto using steady_resolve_venue_id.
Qed.

(* ====================================================================== *)
(** ** The notification router *)
(* ====================================================================== *)

Lemma prefix_spec (needle hay : string) :
  String.prefix needle hay = true ↔ ∃ rest, hay = (needle ++ rest)%string.
Proof.
  revert hay. induction needle as [|c needle IH]; intros hay.
  - split; [intros _; by exists hay|intros _; by destruct hay].
  - destruct hay as [|c' hay]; simpl.
    + split; [done|]. by intros [rest Hrest].
    + destruct (ascii_dec c c') as [->|Hne].
      * rewrite IH. split; intros [rest Hrest]; exists rest.
        -- by rewrite Hrest.
        -- by injection Hrest.
      * split; [done|]. intros [rest Hrest]. injection Hrest as Hc _.
        by destruct Hne.
Qed.

Lemma contains_spec (needle hay : string) :
  PyStr.contains needle hay = true ↔ substring_of needle hay.
Proof.
  unfold substring_of. induction hay as [|c hay IH].
  - cbn [PyStr.contains]. rewrite orb_false_r, prefix_spec. split.
    + intros [rest Hrest]. by exists EmptyString, rest.
    + intros (before & after & Heq). destruct before as [|? ?]; [|done].
      by exists after.
  - cbn [PyStr.contains]. rewrite orb_true_iff, prefix_spec, IH. split.
    + intros [[rest Hrest] | (before & after & Heq)].
      * by exists EmptyString, rest.
      * exists (String c before), after. simpl. by rewrite Heq.
    + intros (before & after & Heq). destruct before as [|c' before].
      * left. by exists after.
      * right. exists before, after. simpl in Heq. by injection Heq.
Qed.

Lemma name_matches_spec (name : string) (sub : NotificationSubscription.t) :
  NotificationHandler.name_matches name sub = true
  ↔ names_overlap name (NotificationSubscription.restaurant_name sub).
Proof.
  unfold NotificationHandler.name_matches, names_overlap.
  by rewrite orb_true_iff, !contains_spec.
Qed.

Lemma matched_subscriptions_spec (name plat : string) (st : Store)
    (sub : NotificationSubscription.t) :
  sub ∈ NotificationHandler.matched_subscriptions name plat st
  ↔ sub ∈ subscriptions st
    ∧ NotificationSubscription.active sub = true
    ∧ NotificationSubscription.platform sub = plat
    ∧ names_overlap name (NotificationSubscription.restaurant_name sub).
Proof.
  unfold NotificationHandler.matched_subscriptions, NotificationHandler.active_on.
  rewrite !list_elem_of_filter, name_matches_spec. tauto.
Qed.

Lemma truthy_spec (v : option string) :
  truthy v = true ↔ ∃ text, v = Some text ∧ text ≠ "".
Proof.
  destruct v as [[|c text]|]; simpl; split; try done.
  - by intros (text & [= <-] & Hne).
  - intros _. by eexists.
  - by intros (text & ? & _).
Qed.

Section Router.
Variable auto_book : Z → string → M bool.

(** [services.orchestrator] binds no [auto_book_from_notification]. *)
Lemma import_auto_book_raises (s : State) :
  import_from Orchestrator.module_names "auto_book_from_notification" s
  = (Raised "ImportError", s).
Proof. reflexivity. Qed.

Lemma process_match_import_error sub notif s :
  NotificationHandler._process_match auto_book sub notif s
  = (Raised "ImportError", s).
Proof.
  unfold NotificationHandler._process_match.
  unfold bind at 1. by rewrite import_auto_book_raises.
Qed.

Lemma process_matches_import_error sub rest notif s :
  NotificationHandler.process_matches auto_book (sub :: rest) notif s
  = (Raised "ImportError", s).
Proof.
  cbn [NotificationHandler.process_matches].
  unfold bind at 1. by rewrite process_match_import_error.
Qed.

Lemma handle_notification_passed_over notif s :
  passed_over notif (store s) →
  NotificationHandler.handle_notification auto_book notif s = (Done tt, s).
Proof.
  intros Hskip. unfold NotificationHandler.handle_notification.
  destruct (truthy (NotificationHandler.restaurant_name notif)) eqn:Hn; [|done].
  destruct (truthy (NotificationHandler.platform notif)) eqn:Hp; [|done].
  destruct Hskip as [?|[?|Hnone]]; [congruence..|].
  apply truthy_spec in Hn as (name & Hname & _).
  apply truthy_spec in Hp as (plat & Hplat & _).
  rewrite Hname, Hplat in *. simpl in *. run_monad.
  destruct (NotificationHandler.matched_subscriptions name plat (store s))
    as [|sub rest] eqn:Hm; [reflexivity|].
  assert (sub ∈ NotificationHandler.matched_subscriptions name plat (store s))
    as Hin by (rewrite Hm; left).
  apply matched_subscriptions_spec in Hin as (Hsub & Hact & Hpl & Hov).
  destruct (Hnone sub); try done. by rewrite Hpl.
Qed.

(** A notification is either passed over, or it has a match and the
    processing of the first match stops the router. *)
Lemma handle_notification_cases notif s :
  (passed_over notif (store s)
   ∧ NotificationHandler.handle_notification auto_book notif s = (Done tt, s))
  ∨ (¬ passed_over notif (store s)
     ∧ NotificationHandler.handle_notification auto_book notif s
       = (Raised "ImportError", s)).
Proof.
  destruct (truthy (NotificationHandler.restaurant_name notif)) eqn:Hn;
    [|left; split; [by left|by apply handle_notification_passed_over; left]].
  destruct (truthy (NotificationHandler.platform notif)) eqn:Hp;
    [|left; split; [right; by left|
                    by apply handle_notification_passed_over; right; left]].
  pose proof Hn as Hn'. pose proof Hp as Hp'.
  apply truthy_spec in Hn' as (name & Hname & _).
  apply truthy_spec in Hp' as (plat & Hplat & _).
  destruct (NotificationHandler.matched_subscriptions name plat (store s))
    as [|sub rest] eqn:Hm.
  - assert (passed_over notif (store s)) as Hskip.
    { do 2 right. intros sub Hsub Hact Hpl Hov.
      rewrite Hname in Hov. rewrite Hplat in Hpl. simpl in Hov.
      assert (sub ∈ NotificationHandler.matched_subscriptions name plat (store s))
        as Hin by (apply matched_subscriptions_spec; naive_solver).
      rewrite Hm in Hin. inversion Hin. }
    left. split; [done|by apply handle_notification_passed_over].
  - right. split.
    + intros [?|[?|Hnone]]; [congruence..|].
      assert (sub ∈ NotificationHandler.matched_subscriptions name plat (store s))
        as Hin by (rewrite Hm; left).
      apply matched_subscriptions_spec in Hin as (Hsub & Hact & Hpl & Hov).
      apply (Hnone sub); try done; [by rewrite Hplat, Hpl|by rewrite Hname].
    + unfold NotificationHandler.handle_notification.
      rewrite Hn, Hp, Hname, Hplat. simpl. unfold bind at 1. cbn [fst snd].
      rewrite Hm. apply process_matches_import_error.
Qed.
End Router.

(** C3: what the code does instead.  The first statement of
    [_process_match] imports [auto_book_from_notification] from
    [services.orchestrator], and that module binds no such name.  So on
    every subscription, every notification and every state the call raises
    [ImportError] and leaves the state as it was: the Request is not read,
    no "notify_received" is committed, no "notification_received" entry is
    logged, the auto-book entry point is not called and no subscription is
    deactivated.  In particular, for the active "Carbone" subscription of a
    Request that stands at "no_availability" and an event that names
    "carbone": the status is still "no_availability", the log is empty and
    the subscription is still active, also with an entry point that would
    have booked. *)
Theorem process_match_stops_at_import
    (auto_book : Z → string → M bool)
    (sub : NotificationSubscription.t)
    (notif : NotificationHandler.Notification) (s : State) :
  ("auto_book_from_notification" ∉ Orchestrator.module_names)
  ∧ NotificationHandler._process_match auto_book sub notif s
    = (Raised "ImportError", s)
  ∧ (let sub := Sample.subscription "Carbone" in
     let notif := Sample.notification (Some "carbone") in
     let s := Sample.state_of (Sample.carbone "no_availability" None) [sub] in
     let s' := run (NotificationHandler._process_match (λ _ _, ret true)
                      sub notif) s in
     sub ∈ NotificationHandler.matched_subscriptions "carbone" "resy" (store s)
     ∧ (NotificationHandler._process_match (λ _ _, ret true) sub notif s).1
       = Raised "ImportError"
     ∧ status_of 1 s' = Some "no_availability"
     ∧ actions s' = []
     ∧ NotificationSubscription.active <$> subscriptions (store s') = [true]).
Proof.
  split; [|split; [apply process_match_import_error|]].
  - by apply (bool_decide_eq_false_1 _).
  - cbv zeta. split; [|by vm_compute].
    apply matched_subscriptions_spec. split; [left|].
    split; [done|]. split; [done|]. left. by exists EmptyString, EmptyString.
Qed.




(** C10.  [handle_notifications] passes over every notification whose
    restaurant name or platform is missing or empty, and every notification
    for which no active subscription on its platform has an overlapping
    name: after a batch made only of such notifications the whole state is
    as before, so no Request status has changed and no ActivityLog entry
    has been written, and the call returns normally. *)
Theorem handle_notifications_skips_unmatched
    (auto_book : Z → string → M bool)
    (notifications : list NotificationHandler.Notification) (s : State) :
  Forall (λ notif, passed_over notif (store s)) notifications →
  NotificationHandler.handle_notifications auto_book notifications s = (Done tt, s)
  ∧ requests (store (run (NotificationHandler.handle_notifications auto_book
                            notifications) s)) = requests (store s)
  ∧ activity_log (store (run (NotificationHandler.handle_notifications auto_book
                                notifications) s)) = activity_log (store s).
Proof.
  intros Hall.
  assert (NotificationHandler.handle_notifications auto_book notifications s
          = (Done tt, s)) as Hrun.
  { induction Hall as [|notif rest Hskip _ IH]; [done|].
    cbn [NotificationHandler.handle_notifications]. unfold bind.
    by rewrite handle_notification_passed_over. }
  unfold run. by rewrite Hrun.
Qed.

Lemma handle_notifications_skips_unmatched_witness :
  NotificationHandler.handle_notifications Sample.no_auto_book
    [Sample.notification None; Sample.notification (Some "Don Angie")]
    (Sample.state_of (Sample.carbone "no_availability" None)
       [Sample.subscription "Carbone"])
  = (Done tt,
     Sample.state_of (Sample.carbone "no_availability" None)
       [Sample.subscription "Carbone"]).
Proof.
  apply (handle_notifications_skips_unmatched Sample.no_auto_book).
  apply Forall_cons. split; [by left|].
  apply Forall_cons. split; [|apply Forall_nil_2].
  do 2 right. intros sub Hsub _ _ Hov.
  apply list_elem_of_singleton in Hsub as ->.
  apply name_matches_spec in Hov. vm_compute in Hov. discriminate.
Defined.

(* ====================================================================== *)
(** ** What one attempt does to the request *)
(* ====================================================================== *)

Lemma akin_refl (r : ReservationRequest.t) : akin r r.
Proof. repeat split; try done; lia. Qed.

Lemma akin_trans (r1 r2 r3 : ReservationRequest.t) :
  akin r1 r2 → akin r2 r3 → akin r1 r3.
Proof.
  intros (?&?&?&?&?&?&?&Hv1&?) (?&?&?&?&?&?&?&Hv2&?).
  repeat split; try congruence; try lia.
  intros Ht. rewrite Hv2; [by apply Hv1|]. by rewrite Hv1.
Qed.

Lemma evolves_refl (id : Z) (s : State) (r : ReservationRequest.t) :
  requests (store s) !! id = Some r → evolves id s s.
Proof.
  intros Hr. split; [done|]. exists r, r.
  split; [done|]. split; [by rewrite insert_id|apply akin_refl].
Qed.

Lemma evolves_trans (id : Z) (s1 s2 s3 : State) :
  evolves id s1 s2 → evolves id s2 s3 → evolves id s1 s3.
Proof.
  intros (Hs1 & r1 & r2 & Hr1 & Hm1 & Ha1) (Hs2 & r2' & r3 & Hr2 & Hm2 & Ha2).
  split; [congruence|]. exists r1, r3. split; [done|].
  rewrite Hm1, lookup_insert_eq in Hr2. injection Hr2 as <-.
  split; [by rewrite Hm2, Hm1, insert_insert_eq|by eapply akin_trans].
Qed.

Lemma evolves_lookup (id : Z) (s s' : State) :
  evolves id s s' →
  ∃ r r', requests (store s) !! id = Some r
          ∧ requests (store s') !! id = Some r' ∧ akin r r'.
Proof.
  intros (_ & r & r' & Hr & Hm & Ha). exists r, r'.
  split; [done|]. split; [by rewrite Hm, lookup_insert_eq|done].
Qed.

Lemma evolves_other (id id' : Z) (s s' : State) :
  evolves id s s' → id' ≠ id →
  requests (store s') !! id' = requests (store s) !! id'.
Proof.
  intros (_ & r & r' & _ & Hm & _) Hne. by rewrite Hm, lookup_insert_ne.
Qed.

Lemma akin_set_status (v : string) (r : ReservationRequest.t) :
  akin r (ReservationRequest.set_status v r).
Proof. repeat split; try done; simpl; lia. Qed.

Lemma akin_set_platform (v : option string) (r : ReservationRequest.t) :
  akin r (ReservationRequest.set_platform v r).
Proof. repeat split; try done; simpl; lia. Qed.

Lemma akin_set_poll_attempts (r : ReservationRequest.t) :
  akin r (ReservationRequest.set_poll_attempts
            (ReservationRequest.poll_attempts r + 1) r).
Proof. repeat split; try done; simpl; lia. Qed.

Lemma akin_set_venue_id (v : option string) (r : ReservationRequest.t) :
  truthy (ReservationRequest.venue_id r) = false →
  akin r (ReservationRequest.set_venue_id v r).
Proof. intros Hf. repeat split; try done; try congruence; simpl; lia. Qed.

(** Closing an [evolves] goal on an explicit end state. *)
Ltac evolves_tac r0 :=
  split; [reflexivity|];
  eexists r0, _; split; [eassumption|];
  split; [cbn; rewrite ?insert_insert_eq; first [reflexivity | by rewrite insert_id]|];
  repeat first
    [ apply akin_refl
    | apply akin_set_status
    | apply akin_set_platform
    | apply akin_set_venue_id; eassumption
    | eapply akin_trans; [|apply akin_set_platform]
    | eapply akin_trans; [|apply akin_set_status] ].

Lemma try_resy_missing (resy : nat → Attempt) (id : Z) (s : State) :
  requests (store s) !! id = None → _try_resy resy id s = (Done false, s).
Proof. intros Hr. unfold _try_resy. run_monad. by rewrite Hr. Qed.

Lemma try_resy_effect (resy : nat → Attempt) (id : Z) (s : State)
    (r : ReservationRequest.t) :
  requests (store s) !! id = Some r →
  evolves id s (run (_try_resy resy id) s)
  ∧ attempts (run (_try_resy resy id) s) = S (attempts s)
  ∧ match (_try_resy resy id s).1 with
    | Done true =>
        status_of id (run (_try_resy resy id) s) = Some "booked"
        ∧ platform_of id (run (_try_resy resy id) s) = Some (Some "resy")
        ∧ (∃ b, bookings (store (run (_try_resy resy id) s))
                = bookings (store s) ++ [b] ∧ confirmed_for id b)
        ∧ can_book resy (attempts s)
    | Done false | Raised _ =>
        status_of id (run (_try_resy resy id) s) = status_of id s
        ∧ platform_of id (run (_try_resy resy id) s) = platform_of id s
        ∧ bookings (store (run (_try_resy resy id) s)) = bookings (store s)
    | OutOfFuel => False
    end.
Proof.
  intros Hr. unfold run, status_of, platform_of, can_book, _try_resy.
  run_monad. rewrite Hr. cbn [fst snd].
  repeat (case_match; run_monad;
          rewrite ?lookup_insert_eq in *; simplify_eq/=).
  all: rewrite ?lookup_insert_eq, ?Hr; cbn.
  all: (split; [evolves_tac r|]); try done.
  all: (split; [reflexivity|]); try done.
  all: repeat split; try done; eauto 10.
  all: first
         [ by eexists; split; [reflexivity|]
         | match goal with H : _ !! _ = Some _ |- _ => by rewrite H end ].
Qed.

(* ====================================================================== *)
(** ** What the sniper and the submit flow do to the request *)
(* ====================================================================== *)

Lemma status_of_row (id : Z) (s : State) (st : string) :
  status_of id s = Some st →
  ∃ r, requests (store s) !! id = Some r ∧ ReservationRequest.status r = st.
Proof.
  unfold status_of. destruct (requests (store s) !! id) as [r|]; [|done].
  intros [= <-]. by exists r.
Qed.

Lemma unguarded_eqb (st : string) :
  unguarded st →
  (st =? "booked")%string = false ∧ (st =? "cancelled")%string = false.
Proof. intros [Hb Hc]. split; by apply String.eqb_neq. Qed.

Lemma poll_loop_over (resy : nat → Attempt) (fuel : nat) (id start d : Z)
    (s : State) :
  d * 1000 ≤ now s - start →
  poll_loop resy fuel id start d s = sniper_timed_out id d s.
Proof.
  intros Hge. destruct fuel; cbn [poll_loop]; unfold bind at 1, clock;
    by destruct (Z.ltb_spec (now s - start) (d * 1000)); [lia|].
Qed.

Lemma poll_loop_step (resy : nat → Attempt) (fuel : nat) (id start d : Z)
    (s : State) (r : ReservationRequest.t) :
  requests (store s) !! id = Some r →
  ReservationRequest.status r ≠ "cancelled" →
  now s - start < d * 1000 →
  poll_loop resy (S fuel) id start d s
  = match _try_resy resy id s with
    | (Done true, s1) => (Done tt, s1)
    | (Done false, s1) =>
        poll_loop resy fuel id start d (advance 500 (bump_poll_attempts id s1))
    | (Raised e, s1) => (Raised e, s1)
    | (OutOfFuel, s1) => (OutOfFuel, s1)
    end.
Proof.
  intros Hr Hnc Hlt. apply String.eqb_neq in Hnc.
  cbn [poll_loop]. unfold bind at 1, clock.
  destruct (Z.ltb_spec (now s - start) (d * 1000)); [|lia].
  unfold bind at 1, session_get at 1. cbn [fst snd]. rewrite Hr, Hnc.
  unfold bind at 1.
  destruct (_try_resy resy id s) as [[[|]|e|] s1]; try reflexivity.
  unfold bind at 1, bind at 1, session_get at 1, bump_poll_attempts.
  cbn [fst snd].
  by destruct (requests (store s1) !! id).
Qed.

Lemma sniper_timed_out_effect (id d : Z) (s : State) (st : string) :
  status_of id s = Some st → unguarded st →
  (sniper_timed_out id d s).1 = Done tt
  ∧ evolves id s (run (sniper_timed_out id d) s)
  ∧ attempts (run (sniper_timed_out id d) s) = attempts s
  ∧ gave_up (λ status, status = "failed") id s (run (sniper_timed_out id d) s).
Proof.
  intros Hst Hun.
  apply status_of_row in Hst as (r & Hr & <-).
  apply unguarded_eqb in Hun as [Hb Hc].
  unfold run, gave_up, status_of, platform_of, sniper_timed_out. run_monad.
  rewrite Hr, Hb, Hc. cbn. rewrite ?lookup_insert_eq.
  split; [done|]. split; [|split; [done|]].
  - split; [done|]. exists r, (ReservationRequest.set_status "failed" r).
    split; [done|]. split; [done|apply akin_set_status].
  - split; [by exists "failed"|done].
Qed.

Lemma bump_poll_attempts_effect (id : Z) (s : State) (r : ReservationRequest.t) :
  requests (store s) !! id = Some r →
  evolves id s (advance 500 (bump_poll_attempts id s))
  ∧ status_of id (advance 500 (bump_poll_attempts id s)) = status_of id s
  ∧ platform_of id (advance 500 (bump_poll_attempts id s)) = platform_of id s
  ∧ bookings (store (advance 500 (bump_poll_attempts id s))) = bookings (store s)
  ∧ attempts (advance 500 (bump_poll_attempts id s)) = attempts s.
Proof.
  intros Hr. unfold bump_poll_attempts, status_of, platform_of.
  rewrite Hr. cbn. rewrite ?lookup_insert_eq.
  split; [|done]. split; [done|].
  eexists r, _. split; [done|]. split; [done|apply akin_set_poll_attempts].
Qed.

Lemma poll_loop_effect (resy : nat → Attempt) (fuel : nat) :
  ∀ (id start d : Z) (s : State) (st : string),
    status_of id s = Some st → unguarded st →
    evolves id s (run (poll_loop resy fuel id start d) s)
    ∧ (attempts s ≤ attempts (run (poll_loop resy fuel id start d) s)
       ≤ attempts s + fuel)%nat
    ∧ match (poll_loop resy fuel id start d s).1 with
      | Done _ =>
          booked_by resy id s (run (poll_loop resy fuel id start d) s)
          ∨ gave_up (λ status, status = "failed") id s
              (run (poll_loop resy fuel id start d) s)
      | _ => gave_up unguarded id s (run (poll_loop resy fuel id start d) s)
      end.
Proof.
  induction fuel as [|fuel IH]; intros id start d s st Hst Hun.
  - destruct (Z.lt_ge_cases (now s - start) (d * 1000)) as [Hlt|Hge].
    + unfold run. cbn [poll_loop]. unfold bind, clock, out_of_fuel.
      destruct (Z.ltb_spec (now s - start) (d * 1000)); [|lia]. cbn.
      destruct (status_of_row _ _ _ Hst) as (r & Hr & _).
      split; [by eapply evolves_refl|]. split; [lia|].
      split; [by exists st|done].
    + unfold run. rewrite poll_loop_over by done.
      destruct (sniper_timed_out_effect id d s st Hst Hun)
        as (Ho & He & Ha & Hg).
      unfold run in *. rewrite Ho, Ha. split; [done|]. split; [lia|by right].
  - destruct (Z.lt_ge_cases (now s - start) (d * 1000)) as [Hlt|Hge].
    + destruct (status_of_row _ _ _ Hst) as (r & Hr & Hrst).
      unfold run. rewrite (poll_loop_step resy fuel id start d s r)
        by (try done; rewrite Hrst; apply Hun).
      destruct (try_resy_effect resy id s r Hr) as (He & Ha & Hpost).
      unfold run in *.
      destruct (_try_resy resy id s) as [[[|]|e|] s1]; cbn [fst snd] in *.
      * destruct Hpost as (Hb & Hp & Hbk & Hcan).
        split; [done|]. split; [lia|]. left.
        repeat split; try done. exists (attempts s). split; [lia|done].
      * destruct Hpost as (Hs1 & Hp1 & Hb1).
        destruct (evolves_lookup _ _ _ He) as (_ & r1 & _ & Hr1 & _).
        destruct (bump_poll_attempts_effect id s1 r1 Hr1)
          as (He2 & Hs2 & Hp2 & Hb2 & Ha2).
        set (s2 := advance 500 (bump_poll_attempts id s1)) in *.
        assert (status_of id s2 = Some st) as Hst2 by congruence.
        destruct (IH id start d s2 st Hst2 Hun) as (He3 & Ha3 & Hpost3).
        split; [eauto using evolves_trans|]. split; [lia|].
        assert (∀ final s3, gave_up final id s2 s3 → gave_up final id s s3)
          as Hgive.
        { intros final s3 (Hf & Hp3 & Hb3). repeat split; [done|..]; congruence. }
        destruct (poll_loop resy fuel id start d s2).1; [|by apply Hgive..].
        destruct Hpost3 as [(Hb3 & Hp3 & (b & Hbk3 & Hc3) & n & Hn & Hcan)|Hg];
          [left|right; by apply Hgive].
        repeat split; try done.
        -- exists b. split; [congruence|done].
        -- exists n. split; [lia|done].
      * destruct Hpost as (Hs1 & Hp1 & Hb1).
        split; [done|]. split; [lia|].
        split; [exists st; split; [congruence|done]|done].
      * done.
    + unfold run. rewrite poll_loop_over by done.
      destruct (sniper_timed_out_effect id d s st Hst Hun)
        as (Ho & He & Ha & Hg).
      unfold run in *. rewrite Ho, Ha. split; [done|]. split; [lia|by right].
Qed.

Lemma booked_by_rebase (resy : nat → Attempt) (id : Z) (s0 s s' : State) :
  bookings (store s0) = bookings (store s) →
  (attempts s ≤ attempts s0)%nat →
  booked_by resy id s0 s' → booked_by resy id s s'.
Proof.
  intros Hb Ha (Hst & Hp & (b & Hbk & Hc) & n & Hn & Hcan).
  repeat split; try done.
  - exists b. split; [congruence|done].
  - exists n. split; [lia|done].
Qed.

Lemma gave_up_rebase (final : string → Prop) (id : Z) (s0 s s' : State) :
  bookings (store s0) = bookings (store s) →
  platform_of id s0 = platform_of id s →
  gave_up final id s0 s' → gave_up final id s s'.
Proof. intros Hb Hp (Hf & Hp' & Hb'). repeat split; [done|..]; congruence. Qed.

Lemma gave_up_weaken (P Q : string → Prop) (id : Z) (s s' : State) :
  (∀ status, P status → Q status) → gave_up P id s s' → gave_up Q id s s'.
Proof.
  intros HPQ ((st & Hst & HP) & Hp & Hb). split; [|done].
  exists st. split; [done|by apply HPQ].
Qed.

Lemma committed_effect (id : Z) (s : State) (r r' : ReservationRequest.t)
    (entry : ActivityLog.t) :
  requests (store s) !! id = Some r → akin r r' →
  ReservationRequest.platform r' = ReservationRequest.platform r →
  evolves id s (committed id r' entry s)
  ∧ status_of id (committed id r' entry s) = Some (ReservationRequest.status r')
  ∧ platform_of id (committed id r' entry s) = platform_of id s
  ∧ bookings (store (committed id r' entry s)) = bookings (store s)
  ∧ attempts (committed id r' entry s) = attempts s.
Proof.
  intros Hr Ha Hp. unfold status_of, platform_of, committed. cbn.
  rewrite lookup_insert_eq, Hr. cbn. rewrite Hp.
  split; [|done]. split; [done|]. by exists r, r'.
Qed.

Lemma orchestration_error_effect (id : Z) (s : State) (st : string) :
  status_of id s = Some st → unguarded st →
  (orchestration_error id s).1 = Done tt
  ∧ evolves id s (run (orchestration_error id) s)
  ∧ attempts (run (orchestration_error id) s) = attempts s
  ∧ gave_up (λ status, status = "failed") id s (run (orchestration_error id) s).
Proof.
  intros Hst Hun.
  apply status_of_row in Hst as (r & Hr & <-).
  apply unguarded_eqb in Hun as [Hb Hc].
  unfold run, gave_up, status_of, platform_of, orchestration_error. run_monad.
  rewrite Hr, Hb, Hc. cbn. rewrite ?lookup_insert_eq.
  split; [done|]. split; [|split; [done|]].
  - split; [done|]. exists r, (ReservationRequest.set_status "failed" r).
    split; [done|]. split; [done|apply akin_set_status].
  - split; [by exists "failed"|done].
Qed.

(** The sniper, entered on a row whose release instant is [t0]: after the
    optional wait it is the poll loop started on the "polling" row. *)
Lemma snipe_reservation_unfold (resy : nat → Attempt) (id : Z) (s : State)
    (r : ReservationRequest.t) (t0 : Z) :
  requests (store s) !! id = Some r →
  ReservationRequest.status r ≠ "cancelled" →
  ReservationRequest.booking_open_time r = Some t0 →
  let d := ReservationRequest.max_poll_duration_secs r in
  let s1 :=
    if 0 <? t0 - now s
    then advance (t0 - now s)
           (committed id (ReservationRequest.set_status "waiting" r)
              (log_entry id "sniper_waiting"
                 (Some (ActivityLog.WaitSeconds (t0 - now s)))) s)
    else s in
  let r1 := if 0 <? t0 - now s
            then ReservationRequest.set_status "waiting" r else r in
  _snipe_reservation resy id s
  = poll_loop resy (Z.to_nat (2 * d)) id (now s1) d
      (committed id (ReservationRequest.set_status "polling" r1)
         (log_entry id "sniper_polling_started" None) s1).
Proof.
  intros Hr Hnc Ht0 d s1 r1. apply String.eqb_neq in Hnc.
  unfold _snipe_reservation. run_monad. rewrite Hr, Hnc, Ht0. cbn.
  subst s1 r1. destruct (0 <? t0 - now s); cbn.
  - by rewrite lookup_insert_eq.
  - by rewrite Hr, Hnc.
Qed.

Lemma snipe_reservation_effect (resy : nat → Attempt) (id : Z) (s : State)
    (r : ReservationRequest.t) :
  requests (store s) !! id = Some r →
  unguarded (ReservationRequest.status r) →
  evolves id s (run (_snipe_reservation resy id) s)
  ∧ (attempts s ≤ attempts (run (_snipe_reservation resy id) s)
     ≤ attempts s + Z.to_nat (2 * ReservationRequest.max_poll_duration_secs r))%nat
  ∧ match (_snipe_reservation resy id s).1 with
    | Done _ =>
        booked_by resy id s (run (_snipe_reservation resy id) s)
        ∨ gave_up (λ status, status = "failed") id s
            (run (_snipe_reservation resy id) s)
    | _ => gave_up unguarded id s (run (_snipe_reservation resy id) s)
    end.
Proof.
  intros Hr Hun.
  destruct (ReservationRequest.booking_open_time r) as [t0|] eqn:Ht0.
  - unfold run.
    rewrite (snipe_reservation_unfold resy id s r t0 Hr (proj2 Hun) Ht0).
    set (d := ReservationRequest.max_poll_duration_secs r).
    set (s1 := if 0 <? t0 - now s then _ else s).
    set (r1 := if 0 <? t0 - now s then _ else r).
    set (s2 := committed id _ _ s1).
    assert (evolves id s s1 ∧ requests (store s1) !! id = Some r1
            ∧ akin r r1
            ∧ ReservationRequest.platform r1 = ReservationRequest.platform r
            ∧ platform_of id s1 = platform_of id s
            ∧ bookings (store s1) = bookings (store s)
            ∧ attempts s1 = attempts s) as (He1 & Hr1 & Ha1 & Hpr1 & Hp1 & Hb1 & Hat1).
    { subst s1 r1. destruct (0 <? t0 - now s).
      - destruct (committed_effect id s r
                    (ReservationRequest.set_status "waiting" r)
                    (log_entry id "sniper_waiting"
                       (Some (ActivityLog.WaitSeconds (t0 - now s)))) Hr
                    (akin_set_status _ _) eq_refl) as (He & _ & Hp & Hb & Ha).
        split; [exact He|]. split; [cbn; by rewrite lookup_insert_eq|].
        split; [apply akin_set_status|]. by repeat split.
      - split; [by eapply evolves_refl|]. split; [done|].
        split; [apply akin_refl|]. by repeat split. }
    destruct (committed_effect id s1 r1
                (ReservationRequest.set_status "polling" r1)
                (log_entry id "sniper_polling_started" None) Hr1
                (akin_set_status _ _) eq_refl) as (He2 & Hst2 & Hp2 & Hb2 & Hat2).
    fold s2 in He2, Hst2, Hp2, Hb2, Hat2.
    assert (unguarded "polling") as Hpoll by (by split).
    destruct (poll_loop_effect resy (Z.to_nat (2 * d)) id (now s1) d s2
                "polling" Hst2 Hpoll) as (He3 & Ha3 & Hpost).
    unfold run in *.
    split; [eauto using evolves_trans|]. split; [lia|].
    assert (bookings (store s2) = bookings (store s)) as Hbs by congruence.
    assert (platform_of id s2 = platform_of id s) as Hps by congruence.
    destruct (poll_loop resy (Z.to_nat (2 * d)) id (now s1) d s2).1;
      [|by eapply gave_up_rebase..].
    destruct Hpost as [Hbk|Hg]; [left|right; by eapply gave_up_rebase].
    eapply booked_by_rebase; [exact Hbs|lia|done].
  - unfold run.
    assert (_snipe_reservation resy id s = (Raised "TypeError", s)) as ->.
    { unfold _snipe_reservation. run_monad.
      destruct (unguarded_eqb _ Hun) as [_ Hc]. by rewrite Hr, Hc, Ht0. }
    cbn. split; [by eapply evolves_refl|]. split; [lia|].
    split; [|done]. eexists. split; [|exact Hun]. unfold status_of. by rewrite Hr.
Qed.

Lemma after_immediate_attempt_effect (resy : nat → Attempt) (id : Z)
    (s : State) (r : ReservationRequest.t) :
  requests (store s) !! id = Some r →
  unguarded (ReservationRequest.status r) →
  evolves id s (run (after_immediate_attempt resy id) s)
  ∧ (attempts s ≤ attempts (run (after_immediate_attempt resy id) s)
     ≤ attempts s + Z.to_nat (2 * ReservationRequest.max_poll_duration_secs r))%nat
  ∧ match (after_immediate_attempt resy id s).1 with
    | Done _ =>
        booked_by resy id s (run (after_immediate_attempt resy id) s)
        ∨ gave_up (λ status, status = "failed" ∨ status = "no_availability")
            id s (run (after_immediate_attempt resy id) s)
    | _ => gave_up unguarded id s (run (after_immediate_attempt resy id) s)
    end.
Proof.
  intros Hr Hun. destruct (unguarded_eqb _ Hun) as [_ Hc].
  destruct (ReservationRequest.booking_open_time r) as [t0|] eqn:Ht0.
  - assert (after_immediate_attempt resy id s = _snipe_reservation resy id s)
      as Heq.
    { unfold after_immediate_attempt. unfold bind at 1, session_get at 1.
      cbn [fst snd]. by rewrite Hr, Hc, Ht0. }
    unfold run. rewrite Heq.
    destruct (snipe_reservation_effect resy id s r Hr Hun) as (He & Ha & Hpost).
    unfold run in *. split; [done|]. split; [done|].
    destruct (_snipe_reservation resy id s).1; [|done..].
    destruct Hpost as [Hb|Hg]; [by left|right].
    eapply gave_up_weaken; [|exact Hg]. intros st ->. by left.
  - unfold run.
    assert (after_immediate_attempt resy id s
            = (Done tt,
               committed id (ReservationRequest.set_status "no_availability" r)
                 (log_entry id "no_availability"
                    (Some (ActivityLog.Reason
                             "No slots found and no booking_open_time set"))) s))
      as ->.
    { unfold after_immediate_attempt. run_monad. by rewrite Hr, Hc, Ht0. }
    destruct (committed_effect id s r
                (ReservationRequest.set_status "no_availability" r)
                (log_entry id "no_availability"
                   (Some (ActivityLog.Reason
                            "No slots found and no booking_open_time set"))) Hr
                (akin_set_status _ _) eq_refl) as (He & Hst & Hp & Hb & Ha).
    cbn [fst snd]. split; [done|]. split; [lia|]. right.
    split; [|done]. eexists. split; [exact Hst|by right].
Qed.

Lemma gave_up_then (P Q : string → Prop) (id : Z) (s1 s2 s3 : State) :
  gave_up P id s1 s2 → gave_up Q id s2 s3 → gave_up Q id s1 s3.
Proof.
  intros (_ & Hp1 & Hb1) (Hq & Hp2 & Hb2). repeat split; [done|..]; congruence.
Qed.

Lemma gave_up_status (P : string → Prop) (id : Z) (s s' : State) :
  gave_up P id s s' →
  ∃ r, requests (store s') !! id = Some r ∧ P (ReservationRequest.status r).
Proof.
  intros ((st & Hst & HP) & _).
  apply status_of_row in Hst as (r & Hr & <-). by exists r.
Qed.

(** The whole submit flow on an existing row. *)
Lemma process_reservation_effect (resy : nat → Attempt) (id : Z) (s : State)
    (r : ReservationRequest.t) :
  requests (store s) !! id = Some r →
  (process_reservation resy id s).1 = Done tt
  ∧ evolves id s (run (process_reservation resy id) s)
  ∧ (attempts s < attempts (run (process_reservation resy id) s)
     ≤ attempts s + 1
       + Z.to_nat (2 * ReservationRequest.max_poll_duration_secs r))%nat
  ∧ (booked_by resy id s (run (process_reservation resy id) s)
     ∨ gave_up (λ status, status = "failed" ∨ status = "no_availability")
         id s (run (process_reservation resy id) s)).
Proof.
  intros Hr.
  set (r1 := ReservationRequest.set_status "searching" r).
  set (s1 := committed id r1 (log_entry id "search_started" None) s).
  assert (process_reservation resy id s
          = try_except
              (let! booked := _try_resy resy id in
               if booked : bool then ret tt
               else after_immediate_attempt resy id)
              (orchestration_error id) s1) as Heq.
  { unfold process_reservation. unfold bind at 1, session_get at 1.
    cbn [fst snd]. by rewrite Hr. }
  destruct (committed_effect id s r r1 (log_entry id "search_started" None)
              Hr (akin_set_status _ _) eq_refl) as (He1 & Hst1 & Hp1 & Hb1 & Ha1).
  fold s1 in He1, Hst1, Hp1, Hb1, Ha1.
  assert (requests (store s1) !! id = Some r1) as Hr1
    by (cbn; apply lookup_insert_eq).
  assert (unguarded "searching") as Hsearch by (by split).
  destruct (try_resy_effect resy id s1 r1 Hr1) as (He2 & Ha2 & Hpost2).
  unfold run in *. rewrite Heq. unfold try_except, bind.
  destruct (_try_resy resy id s1) as [[[|]|e|] s2]; cbn [fst snd ret] in *.
  - destruct Hpost2 as (Hb & Hp & Hbk & Hcan).
    split; [done|]. split; [eauto using evolves_trans|]. split; [lia|]. left.
    eapply booked_by_rebase; [exact Hb1|lia|].
    repeat split; try done. exists (attempts s1). split; [lia|done].
  - destruct Hpost2 as (Hs2 & Hp2 & Hb2).
    assert (gave_up unguarded id s1 s2) as Hg2.
    { split; [|done]. exists "searching". split; [by rewrite Hs2, Hst1|done]. }
    destruct (gave_up_status _ _ _ _ Hg2) as (r2 & Hr2 & Hun2).
    destruct (evolves_lookup _ _ _ He2) as (r1' & r2' & Hr1' & Hr2' & Hak).
    assert (ReservationRequest.max_poll_duration_secs r2
            = ReservationRequest.max_poll_duration_secs r) as Hd.
    { rewrite Hr1 in Hr1'. rewrite Hr2 in Hr2'. simplify_eq.
      destruct Hak as (_&_&_&_&_&_&Hak&_). by rewrite Hak. }
    destruct (after_immediate_attempt_effect resy id s2 r2 Hr2 Hun2)
      as (He3 & Ha3 & Hpost3).
    pose proof (after_immediate_attempt_total resy id s2) as Htot.
    unfold run in *. rewrite Hd in Ha3.
    destruct (after_immediate_attempt resy id s2) as [[[]|e|] s3];
      cbn [fst snd] in *; [| |done].
    + split; [done|]. split; [eauto using evolves_trans|]. split; [lia|].
      destruct Hpost3 as [Hbk|Hg]; [left|right].
      * eapply booked_by_rebase; [|  |exact Hbk]; [congruence|lia].
      * eapply gave_up_rebase; [exact Hb1|exact Hp1|].
        by eapply gave_up_then.
    + destruct Hpost3 as ((st3 & Hst3 & Hun3) & Hp3 & Hb3).
      destruct (orchestration_error_effect id s3 st3 Hst3 Hun3)
        as (Ho & He4 & Ha4 & Hg4).
      unfold run in *. rewrite Ho.
      split; [done|]. split; [eauto using evolves_trans|]. split; [lia|]. right.
      eapply gave_up_rebase; [exact Hb1|exact Hp1|].
      eapply (gave_up_then unguarded); [exact Hg2|].
      eapply (gave_up_then unguarded);
        [split; [by exists st3|done]|].
      eapply gave_up_weaken; [|exact Hg4]. intros st ->. by left.
  - destruct Hpost2 as (Hs2 & Hp2 & Hb2).
    assert (status_of id s2 = Some "searching") as Hst2 by (by rewrite Hs2, Hst1).
    destruct (orchestration_error_effect id s2 "searching" Hst2 Hsearch)
      as (Ho & He4 & Ha4 & Hg4).
    unfold run in *. rewrite Ho.
    split; [done|]. split; [eauto using evolves_trans|]. split; [lia|]. right.
    eapply gave_up_rebase; [exact Hb1|exact Hp1|].
    eapply (gave_up_then unguarded);
      [split; [by exists "searching"|done]|].
    eapply gave_up_weaken; [|exact Hg4]. intros st ->. by left.
  - done.
Qed.

(* ====================================================================== *)
(** ** The submit flow, from submit to sniper *)
(* ====================================================================== *)







(* ====================================================================== *)
(** ** Properties of the acquisition flow *)
(* ====================================================================== *)

(** X1.  [_try_resy] sets status and platform together with the Booking
    row or not at all.  On an existing Request, when it returns [True] the
    status is "booked", the platform is "resy" and exactly one confirmed
    Booking of the Request has been appended; when it returns [False] or
    raises, status, platform and the bookings table are as before.  In
    every case one scripted round trip is used up, no other request row
    and no subscription changes, and the Request keeps the attributes
    fixed at creation. *)
Theorem try_resy_books_atomically (resy : nat → Attempt) (id : Z) (s : State)
    (r : ReservationRequest.t) :
  requests (store s) !! id = Some r →
  let s' := run (_try_resy resy id) s in
  ((_try_resy resy id s).1 = Done true →
     status_of id s' = Some "booked"
     ∧ platform_of id s' = Some (Some "resy")
     ∧ ∃ b, bookings (store s') = bookings (store s) ++ [b]
            ∧ confirmed_for id b)
  ∧ ((_try_resy resy id s).1 ≠ Done true →
     status_of id s' = status_of id s
     ∧ platform_of id s' = platform_of id s
     ∧ bookings (store s') = bookings (store s))
  ∧ attempts s' = S (attempts s)
  ∧ subscriptions (store s') = subscriptions (store s)
  ∧ (∀ id', id' ≠ id → requests (store s') !! id' = requests (store s) !! id')
  ∧ ∃ r', requests (store s') !! id = Some r' ∧ akin r r'.
Proof.
  intros Hr s'. destruct (try_resy_effect resy id s r Hr) as (He & Ha & Hpost).
  fold s' in He, Ha, Hpost. split; [|split; [|split; [done|split; [apply He|split]]]].
  - intros Ho. rewrite Ho in Hpost. by destruct Hpost as (? & ? & ? & _).
  - intros Ho. by destruct (_try_resy resy id s).1 as [[|]|e|].
  - intros id' Hne. by eapply evolves_other.
  - destruct (evolves_lookup _ _ _ He) as (r0 & r' & Hr0 & Hr' & Hak).
    exists r'. split; [done|]. congruence.
Qed.

Lemma try_resy_books_atomically_witness :
  platform_of 1 (run (_try_resy Sample.always_books 1)
                   (Sample.state_of (Sample.carbone "searching" None) []))
  = Some (Some "resy").
Proof.
  destruct (try_resy_books_atomically Sample.always_books 1
              (Sample.state_of (Sample.carbone "searching" None) [])
              (Sample.carbone "searching" None)) as [H _]; [reflexivity|].
  by destruct H as (_ & H & _).
Defined.

(** X2.  A submit run always settles the Request.  For every existing
    Request and every behaviour of the platform (replies, failures,
    exceptions), [process_reservation] returns normally and leaves the
    Request "booked", "failed" or "no_availability": never in a transient
    status, and never "cancelled". *)
Theorem process_reservation_settles (resy : nat → Attempt) (id : Z) (s : State)
    (r : ReservationRequest.t) :
  requests (store s) !! id = Some r →
  (process_reservation resy id s).1 = Done tt
  ∧ ∃ status, status_of id (run (process_reservation resy id) s) = Some status
              ∧ settled status.
Proof.
  intros Hr.
  destruct (process_reservation_effect resy id s r Hr) as (Ho & _ & _ & Hpost).
  split; [done|]. destruct Hpost as [(Hb & _)|((st & Hst & Hf) & _)].
  - exists "booked". split; [done|by left].
  - exists st. split; [done|]. right. exact Hf.
Qed.

Lemma process_reservation_settles_witness :
  (process_reservation Sample.never_books 1
     (Sample.state_of (Sample.carbone "pending" (Some 5000)) [])).1 = Done tt.
Proof.
  by destruct (process_reservation_settles Sample.never_books 1
                 (Sample.state_of (Sample.carbone "pending" (Some 5000)) [])
                 (Sample.carbone "pending" (Some 5000))) as [H _].
Defined.

(** X3.  After a submit run the status tells whether a booking was made.
    If the Request ends "booked", exactly one Booking row was appended
    during the run: a confirmed Resy booking of this Request, and the
    platform column is "resy".  If it ends otherwise, the bookings table
    and the platform column are exactly as before the run. *)
Theorem process_reservation_booked_iff_booking
    (resy : nat → Attempt) (id : Z) (s : State) (r : ReservationRequest.t) :
  requests (store s) !! id = Some r →
  let s' := run (process_reservation resy id) s in
  (status_of id s' = Some "booked" →
     platform_of id s' = Some (Some "resy")
     ∧ (∃ b, bookings (store s') = bookings (store s) ++ [b]
             ∧ confirmed_for id b)
     ∧ confirmed_bookings id (store s') = S (confirmed_bookings id (store s)))
  ∧ (status_of id s' ≠ Some "booked" →
     bookings (store s') = bookings (store s)
     ∧ platform_of id s' = platform_of id s).
Proof.
  intros Hr s'.
  destruct (process_reservation_effect resy id s r Hr) as (_ & _ & _ & Hpost).
  fold s' in Hpost.
  destruct Hpost as [(Hb & Hp & (b & Hbk & Hc) & _)|((st & Hst & Hf) & Hp & Hbk)].
  - split; [|done]. intros _. split; [done|]. split; [by exists b|].
    destruct Hc as (Hid & Hconf & _).
    by rewrite (confirmed_bookings_app id _ b (bookings (store s))).
  - split; [|done]. intros Hb. rewrite Hst in Hb. injection Hb as ->.
    by destruct Hf.
Qed.

Lemma process_reservation_booked_iff_booking_witness :
  confirmed_bookings 1
    (store (run (process_reservation Sample.always_books 1)
              (Sample.state_of (Sample.carbone "pending" None) [])))
  = 1%nat.
Proof.
  destruct (process_reservation_booked_iff_booking Sample.always_books 1
              (Sample.state_of (Sample.carbone "pending" None) [])
              (Sample.carbone "pending" None)) as [H _]; [reflexivity|].
  destruct H as (_ & _ & H); [reflexivity|]. exact H.
Defined.

(** X4.  A submit run touches one Request only.  Every other request row
    and every subscription is unchanged; the Request itself still exists
    and keeps its restaurant name, date, time, party size, contact email,
    release instant and poll duration; a venue id that was set is kept
    (write-once), and the poll counter has not gone down. *)
Theorem process_reservation_touches_one_request
    (resy : nat → Attempt) (id : Z) (s : State) (r : ReservationRequest.t) :
  requests (store s) !! id = Some r →
  let s' := run (process_reservation resy id) s in
  subscriptions (store s') = subscriptions (store s)
  ∧ (∀ id', id' ≠ id → requests (store s') !! id' = requests (store s) !! id')
  ∧ ∃ r', requests (store s') !! id = Some r' ∧ akin r r'.
Proof.
  intros Hr s'.
  destruct (process_reservation_effect resy id s r Hr) as (_ & He & _).
  fold s' in He. split; [apply He|]. split.
  - intros id' Hne. by eapply evolves_other.
  - destruct (evolves_lookup _ _ _ He) as (r0 & r' & Hr0 & Hr' & Hak).
    exists r'. split; [done|]. congruence.
Qed.

Lemma process_reservation_touches_one_request_witness :
  subscriptions
    (store (run (process_reservation Sample.always_books 1)
              (Sample.state_of (Sample.carbone "pending" None)
                 [Sample.subscription "Carbone"])))
  = [Sample.subscription "Carbone"].
Proof.
  by destruct (process_reservation_touches_one_request Sample.always_books 1
                 (Sample.state_of (Sample.carbone "pending" None)
                    [Sample.subscription "Carbone"])
                 (Sample.carbone "pending" None)) as [H _].
Defined.


Lemma never_books_cannot_book (n : nat) : ¬ can_book Sample.never_books n.
Proof. by intros (venue & date & time & party & result & [= <-] & Hok). Qed.




Lemma retry_reservation_unfold (resy : nat → Attempt) (id : Z) (s : State) :
  run (Reservations.retry_reservation resy id) s
  = match requests (store s) !! id with
    | None => s
    | Some r =>
        if (ReservationRequest.status r =? "booked")%string then s
        else run (process_reservation resy id)
               (set_store
                  (set_requests
                     (<[id := ReservationRequest.set_status "pending" r]>
                        (requests (store s))) (store s)) s)
    end.
Proof.
  unfold run, Reservations.retry_reservation, Reservations.retry_transaction.
  run_monad. destruct (requests (store s) !! id) as [r|]; [|done].
  cbn [fst snd].
  destruct (ReservationRequest.status r =? "booked")%string; [done|].
  cbn [fst snd].
  match goal with |- context [process_reservation resy id ?s0] =>
    by destruct (process_reservation resy id s0) as [[[]|e|] s1] end.
Qed.

Lemma retry_reservation_effect (resy : nat → Attempt) (id : Z) (s : State) :
  let s' := run (Reservations.retry_reservation resy id) s in
  (status_of id s = Some "booked" → s' = s)
  ∧ (bookings (store s') = bookings (store s)
     ∨ (status_of id s' = Some "booked"
        ∧ ∃ b, bookings (store s') = bookings (store s) ++ [b]
               ∧ confirmed_for id b)).
Proof.
  cbv zeta. rewrite retry_reservation_unfold. unfold status_of at 1.
  destruct (requests (store s) !! id) as [r|] eqn:Hr; [|by split; [|left]].
  cbn [fmap option_fmap option_map].
  destruct (String.eqb_spec (ReservationRequest.status r) "booked") as [Hb|Hnb];
    [by split; [|left]|].
  split; [by intros [= ?]|].
  set (s0 := set_store _ s).
  assert (requests (store s0) !! id
          = Some (ReservationRequest.set_status "pending" r)) as Hr0
    by (cbn; apply lookup_insert_eq).
  destruct (process_reservation_effect resy id s0 _ Hr0) as (_ & _ & _ & Hpost).
  destruct Hpost as [(Hst & _ & Hbk & _)|(_ & _ & Hbk)]; [right|by left].
  by split.
Qed.

(** X7.  Retrying never books twice.  Whatever the platform answers, [n]
    retry requests for one Request, each run to its end before the next,
    append at most one Booking row in total: once a retry has booked, the
    Request is "booked" and every further retry is refused without any
    change. *)
Theorem retries_book_at_most_once
    (resy : nat → Attempt) (id : Z) (s : State) (n : nat) :
  (confirmed_bookings id (store (retries resy id n s))
   ≤ confirmed_bookings id (store s) + 1)%nat
  ∧ (bookings (store (retries resy id n s)) = bookings (store s)
     ∨ (status_of id (retries resy id n s) = Some "booked"
        ∧ ∃ b, bookings (store (retries resy id n s)) = bookings (store s) ++ [b]
               ∧ confirmed_for id b)).
Proof.
  assert (bookings (store (retries resy id n s)) = bookings (store s)
          ∨ (status_of id (retries resy id n s) = Some "booked"
             ∧ ∃ b, bookings (store (retries resy id n s))
                    = bookings (store s) ++ [b] ∧ confirmed_for id b)) as H.
  { induction n as [|n IH]; [by left|].
    unfold retries in *. rewrite Nat.iter_succ.
    set (sn := Nat.iter n _ s) in *.
    destruct (retry_reservation_effect resy id sn) as [Hsame Hstep].
    destruct IH as [Hb|(Hst & b & Hbk & Hc)].
    - destruct Hstep as [Hb'|(Hst & b & Hbk & Hc)]; [left; congruence|right].
      split; [done|]. exists b. split; [congruence|done].
    - right. rewrite (Hsame Hst). split; [done|by exists b]. }
  split; [|exact H].
  destruct H as [Hb|(_ & b & Hbk & Hid & Hconf & _)].
  - unfold confirmed_bookings. rewrite Hb. lia.
  - rewrite (confirmed_bookings_app id _ b (bookings (store s))) by done.
    unfold confirmed_bookings. lia.
Qed.

Lemma cancel_reservation_unfold (id : Z) (s : State) :
  run (Reservations.cancel_reservation id) s
  = match requests (store s) !! id with
    | None => s
    | Some r =>
        {| now := now s; attempts := attempts s;
           store :=
             {| requests :=
                  <[id := ReservationRequest.set_status "cancelled" r]>
                    (requests (store s));
                subscriptions :=
                  List.map (λ sub,
                       if decide (NotificationSubscription.request_id sub = id)
                       then NotificationSubscription.set_active false sub
                       else sub)
                    (subscriptions (store s));
                bookings := bookings (store s);
                activity_log := activity_log (store s) |} |}
    end.
Proof.
  unfold run, Reservations.cancel_reservation. run_monad.
  by destruct (requests (store s) !! id).
Qed.

(** X8.  Cancelling is idempotent and writes nothing else.  A second cancel
    of the same Request leaves the state exactly as the first one did; a
    cancel appends no ActivityLog entry, leaves every Booking row as it is
    (a confirmed booking stays "confirmed"), leaves every other request row
    alone, and changes no subscription of another Request. *)
Theorem cancel_reservation_idempotent (id : Z) (s : State) :
  let s' := run (Reservations.cancel_reservation id) s in
  run (Reservations.cancel_reservation id) s' = s'
  ∧ bookings (store s') = bookings (store s)
  ∧ activity_log (store s') = activity_log (store s)
  ∧ (∀ id', id' ≠ id → requests (store s') !! id' = requests (store s) !! id')
  ∧ List.length (subscriptions (store s')) = List.length (subscriptions (store s))
  ∧ (∀ i sub, subscriptions (store s) !! i = Some sub →
       NotificationSubscription.request_id sub ≠ id →
       subscriptions (store s') !! i = Some sub).
Proof.
  cbv zeta. rewrite (cancel_reservation_unfold id s).
  destruct (requests (store s) !! id) as [r|] eqn:Hr.
  - rewrite cancel_reservation_unfold. cbn. rewrite lookup_insert_eq.
    repeat split.
    + f_equal. f_equal.
      * by rewrite insert_insert_eq.
      * rewrite map_map. apply map_ext. intros sub.
        by repeat (case_decide; cbn).
    + intros id' Hne. by rewrite lookup_insert_ne.
    + by rewrite length_map.
    + intros i sub Hi Hne. rewrite list_lookup_fmap, Hi. cbn.
      by rewrite decide_False.
  - rewrite cancel_reservation_unfold, Hr. by repeat split.
Qed.

Lemma cancel_reservation_idempotent_witness :
  subscriptions
    (store (run (Reservations.cancel_reservation 2)
              (Sample.state_of (Sample.carbone "polling" None)
                 [Sample.subscription "Carbone"]))) !! 0%nat
  = Some (Sample.subscription "Carbone").
Proof.
  destruct (cancel_reservation_idempotent 2
              (Sample.state_of (Sample.carbone "polling" None)
                 [Sample.subscription "Carbone"])) as (_ & _ & _ & _ & _ & H).
  by apply H.
Defined.

Lemma search_and_book_success_inv
    (x : ResyApi.Exchange) (venue date preferred : string) (party_size : Z)
    (result : ResyApi.BookResult) :
  ResyApi.search_and_book x venue date preferred party_size = Returns result →
  ResyApi.success result = true →
  ∃ slots best details tok booked,
    ResyApi.find_available_slots x venue date party_size = Returns slots
    ∧ best ∈ slots
    ∧ Resy._pick_best_slot slots preferred = Some best
    ∧ (∀ s, s ∈ slots →
         Resy.time_diff preferred best ≤ Resy.time_diff preferred s)
    ∧ ResyApi.get_slot_details x (Resy.config_id best) date party_size
      = Returns (Some details)
    ∧ ResyApi.book_token details = Some tok ∧ tok ≠ ""
    ∧ ResyApi.book_slot x tok = Returns booked
    ∧ ResyApi.success booked = true
    ∧ result = ResyApi.with_booked_time (Resy.time best) booked
    ∧ ResyApi.booked_time result = Some (Resy.time best).
Proof.
  intros Hrun Hok. unfold ResyApi.search_and_book in Hrun.
  destruct (ResyApi.find_available_slots x venue date party_size)
    as [slots|e] eqn:Hfind; [|done].
  destruct slots as [|s0 rest] eqn:Hslots; [by simplify_eq/=|].
  rewrite <- Hslots in *.
  assert (slots ≠ []) as Hne by (by rewrite Hslots).
  destruct (pick_best_slot_first_minimum slots preferred Hne)
    as (best & before & after & Hpick & Heq & Hb & Ha).
  rewrite Hpick in Hrun. unfold ResyApi.book_best in Hrun.
  destruct (ResyApi.get_slot_details x (Resy.config_id best) date party_size)
    as [[details|]|e] eqn:Hdet; [|by simplify_eq/=|done].
  destruct (ResyApi.book_token details) as [[|c tok]|] eqn:Htok;
    [by simplify_eq/=| |by simplify_eq/=].
  destruct (ResyApi.book_slot x (String c tok)) as [booked|e] eqn:Hbook; [|done].
  destruct (ResyApi.success booked) eqn:Hsb;
    [|injection Hrun as <-; congruence].
  injection Hrun as <-.
  exists slots, best, details, (String c tok), booked.
  repeat split; try done.
  - rewrite Heq. apply elem_of_app. right. left.
  - intros s Hs. rewrite Heq in Hs.
    apply elem_of_app in Hs as [Hs|Hs]; [specialize (Hb _ Hs); lia|].
    apply elem_of_cons in Hs as [->|Hs]; [lia|by apply Ha].
Qed.

(** X9.  When [search_and_book] reports success, the booking is for the
    slot that [_pick_best_slot] chose: [find_available_slots] returned a
    non-empty list, the chosen slot is at minimal distance from the
    preferred time, its details carried a non-empty book token, [book_slot]
    succeeded on that token, and the result is that of [book_slot] with
    [booked_time] set to the chosen slot's time. *)
Theorem search_and_book_success_is_best_slot
    (x : ResyApi.Exchange) (venue date preferred : string) (party_size : Z)
    (result : ResyApi.BookResult) :
  ResyApi.search_and_book x venue date preferred party_size = Returns result →
  ResyApi.success result = true →
  ∃ slots best details tok booked,
    ResyApi.find_available_slots x venue date party_size = Returns slots
    ∧ best ∈ slots
    ∧ Resy._pick_best_slot slots preferred = Some best
    ∧ (∀ s, s ∈ slots →
         Resy.time_diff preferred best ≤ Resy.time_diff preferred s)
    ∧ ResyApi.get_slot_details x (Resy.config_id best) date party_size
      = Returns (Some details)
    ∧ ResyApi.book_token details = Some tok ∧ tok ≠ ""
    ∧ ResyApi.book_slot x tok = Returns booked
    ∧ ResyApi.success booked = true
    ∧ result = ResyApi.with_booked_time (Resy.time best) booked
    ∧ ResyApi.booked_time result = Some (Resy.time best).
Proof. apply search_and_book_success_inv. Qed.

Lemma search_and_book_success_is_best_slot_witness :
  ∃ slots best,
    ResyApi.find_available_slots Sample.open_table "123" "2025-06-01" 2
    = Returns slots
    ∧ Resy._pick_best_slot slots "19:00" = Some best.
Proof.
  destruct (search_and_book_success_is_best_slot Sample.open_table
              "123" "2025-06-01" "19:00" 2
              (ResyApi.with_booked_time (Some "19:00") Sample.confirmation))
    as (slots & best & _ & _ & _ & Hfind & _ & Hpick & _);
    [reflexivity|reflexivity|].
  by exists slots, best.
Defined.

(** X10.  Venue not found.  For a Request without a venue id, when the
    venue search returns no hit, or a first hit without a Resy id,
    [_try_resy] returns [False] after logging "resy_search" and
    "resy_venue_not_found": it does not look at later hits, makes no
    booking round trip (the clock does not move), and changes no request
    row and no Booking. *)
Theorem try_resy_venue_not_found (resy : nat → Attempt) (id : Z) (s : State)
    (r : ReservationRequest.t) (hits : list string) :
  requests (store s) !! id = Some r →
  truthy (ReservationRequest.venue_id r) = false →
  search_venues (resy (attempts s)) (ReservationRequest.restaurant_name r)
  = Returns hits →
  head hits = None ∨ head hits = Some "" →
  let s' := run (_try_resy resy id) s in
  (_try_resy resy id s).1 = Done false
  ∧ actions s' = actions s ++ ["resy_search"; "resy_venue_not_found"]
  ∧ requests (store s') = requests (store s)
  ∧ bookings (store s') = bookings (store s)
  ∧ now s' = now s.
Proof.
  intros Hr Hv Hsearch Hhead.
  unfold run, actions, _try_resy. run_monad. rewrite Hr. cbn.
  rewrite Hv, Hsearch. cbn.
  assert (∀ A (l : list A) x y, (l ++ [x]) ++ [y] = l ++ [x; y]) as Happ
    by (intros; by rewrite <- app_assoc).
  destruct hits as [|hit rest]; cbn.
  - rewrite !map_app. cbn. by rewrite Happ.
  - destruct Hhead as [|[= ->]]; [done|]. cbn.
    rewrite !map_app. cbn. by rewrite Happ.
Qed.

Lemma try_resy_venue_not_found_witness :
  (_try_resy (λ _, {| search_venues := λ _, Returns [""; "123"];
                      exchange := Sample.open_table; elapsed := 200 |}) 1
     (Sample.state_of (ReservationRequest.set_venue_id None
                         (Sample.carbone "searching" None)) [])).1
  = Done false.
Proof.
  by destruct (try_resy_venue_not_found
                 (λ _, {| search_venues := λ _, Returns [""; "123"];
                          exchange := Sample.open_table; elapsed := 200 |}) 1
                 (Sample.state_of (ReservationRequest.set_venue_id None
                                     (Sample.carbone "searching" None)) [])
                 (ReservationRequest.set_venue_id None
                    (Sample.carbone "searching" None))
                 [""; "123"] eq_refl eq_refl eq_refl (or_intror eq_refl))
    as [H _].
Defined.

(** X11.  A cancelled Request stops the sniper.  On a Request whose status
    is "cancelled", step 2 of the submit flow, the sniper and every round
    of its poll loop return at once: no call of the platform, no log entry,
    no change of any kind. *)
Theorem cancelled_request_stops_sniper (resy : nat → Attempt) (id : Z)
    (s : State) (r : ReservationRequest.t) :
  requests (store s) !! id = Some r →
  ReservationRequest.status r = "cancelled" →
  after_immediate_attempt resy id s = (Done tt, s)
  ∧ _snipe_reservation resy id s = (Done tt, s)
  ∧ ∀ fuel start d, poll_loop resy (S fuel) id start d s = (Done tt, s).
Proof.
  intros Hr Hc. split; [|split].
  - unfold after_immediate_attempt. run_monad. by rewrite Hr, Hc.
  - unfold _snipe_reservation. unfold bind at 1, session_get at 1.
    cbn [fst snd]. by rewrite Hr, Hc.
  - intros fuel start d. cbn [poll_loop]. unfold bind at 1, clock.
    destruct (now s - start <? d * 1000).
    + unfold bind at 1, session_get at 1. cbn [fst snd]. by rewrite Hr, Hc.
    + unfold sniper_timed_out. run_monad. by rewrite Hr, Hc.
Qed.

Lemma cancelled_request_stops_sniper_witness :
  _snipe_reservation Sample.always_books 1
    (Sample.state_of (Sample.carbone "cancelled" (Some 0)) [])
  = (Done tt, Sample.state_of (Sample.carbone "cancelled" (Some 0)) []).
Proof.
  by destruct (cancelled_request_stops_sniper Sample.always_books 1
                 (Sample.state_of (Sample.carbone "cancelled" (Some 0)) [])
                 (Sample.carbone "cancelled" (Some 0)) eq_refl eq_refl)
    as (_ & H & _).
Defined.



(* ====================================================================== *)
(** ** The Resy HTTP layer *)
(* ====================================================================== *)

Lemma collect_slots_flat (venues : list ResyHttp.Venue) :
  ResyHttp.collect_slots venues
  = ResyHttp.slot_of_group
      <$> (venues ≫= λ venue, default [] (ResyHttp.slots venue)).
Proof.
  induction venues as [|venue rest IH]; [done|].
  cbn [ResyHttp.collect_slots]. by rewrite bind_cons, fmap_app, IH.
Qed.

(** X12.  [find_available_slots] answers with the empty list for every
    status code other than 200 (401 included) without reading the body.  On
    a 200 reply it returns exactly one slot per slot group of the payload,
    venue by venue and group by group in payload order, each slot carrying
    the group's config id, token and type and the start of its date; if the
    body of a 200 reply is not JSON, the decoding error is raised. *)
Theorem find_available_slots_one_slot_per_group
    (resp : ResyHttp.Response ResyHttp.FindData) :
  (ResyHttp.status_code resp ≠ 200 →
     ResyHttp.find_available_slots (Returns resp) = Returns [])
  ∧ (∀ e, ResyHttp.status_code resp = 200 →
          ResyHttp.json resp = Raises e →
          ResyHttp.find_available_slots (Returns resp) = Raises e)
  ∧ (∀ data,
       ResyHttp.status_code resp = 200 →
       ResyHttp.json resp = Returns data →
       let groups :=
         default [] (ResyHttp.results data ≫= ResyHttp.venues)
           ≫= λ venue, default [] (ResyHttp.slots venue) in
       ∃ slots,
         ResyHttp.find_available_slots (Returns resp) = Returns slots
         ∧ List.length slots = List.length groups
         ∧ ∀ i group, groups !! i = Some group →
             ∃ slot,
               slots !! i = Some slot
               ∧ Resy.time slot = ResyHttp.date group ≫= ResyHttp.start
               ∧ Resy.config_id slot = ResyHttp.config group ≫= ResyHttp.id
               ∧ Resy.token slot = ResyHttp.config group ≫= ResyHttp.token
               ∧ Resy.type slot = ResyHttp.config group ≫= ResyHttp.type).
Proof.
  split; [|split].
  - intros Hne. unfold ResyHttp.find_available_slots.
    destruct (Z.eqb_spec (ResyHttp.status_code resp) 401); [done|].
    by destruct (Z.eqb_spec (ResyHttp.status_code resp) 200).
  - intros e H200 Hjson. unfold ResyHttp.find_available_slots.
    by rewrite H200, Hjson.
  - intros data H200 Hjson groups.
    exists (ResyHttp.slot_of_group <$> groups). split; [|split].
    + unfold ResyHttp.find_available_slots. rewrite H200, Hjson. cbn.
      subst groups.
      destruct (ResyHttp.results data ≫= ResyHttp.venues) as [[|v vs]|];
        [done| |done].
      by rewrite collect_slots_flat.
    + by rewrite length_fmap.
    + intros i group Hi. exists (ResyHttp.slot_of_group group).
      split; [by rewrite list_lookup_fmap, Hi|done].
Qed.

Lemma find_available_slots_one_slot_per_group_witness :
  ResyHttp.find_available_slots
    (ResyHttp.on_find expired_server "123" "2025-06-01" 2)
  = Returns [].
Proof.
  destruct (find_available_slots_one_slot_per_group
              {| ResyHttp.status_code := 401; ResyHttp.text := "";
                 ResyHttp.json := Raises "JSONDecodeError" |}) as [H _].
  by apply H.
Defined.

(** X13.  An expired token looks like an empty restaurant.  When the find
    request is answered with any status other than 200, or with a payload
    that holds no slot group, [search_and_book] returns the failure
    "no_availability", whatever the other two endpoints would answer. *)
Theorem search_and_book_no_availability_over_http
    (server : ResyHttp.Server) (venue date preferred : string) (party_size : Z)
    (resp : ResyHttp.Response ResyHttp.FindData) :
  ResyHttp.on_find server venue date party_size = Returns resp →
  (ResyHttp.status_code resp ≠ 200
   ∨ ∃ data, ResyHttp.json resp = Returns data
             ∧ (default [] (ResyHttp.results data ≫= ResyHttp.venues)
                  ≫= λ venue, default [] (ResyHttp.slots venue)) = []) →
  ResyApi.search_and_book (ResyHttp.exchange_with server)
    venue date preferred party_size
  = Returns (ResyApi.failure "no_availability").
Proof.
  intros Hfind Hcase. unfold ResyApi.search_and_book. cbn. rewrite Hfind.
  unfold ResyHttp.find_available_slots.
  destruct (Z.eqb_spec (ResyHttp.status_code resp) 401) as [|_]; [done|].
  destruct (Z.eqb_spec (ResyHttp.status_code resp) 200) as [H200|]; [|done].
  destruct Hcase as [|(data & Hjson & Hnone)]; [done|].
  rewrite Hjson. cbn.
  destruct (ResyHttp.results data ≫= ResyHttp.venues) as [[|v vs]|];
    [done| |done].
  cbn [default from_option id] in Hnone.
  by rewrite collect_slots_flat, Hnone.
Qed.

Lemma search_and_book_no_availability_over_http_witness :
  ResyApi.search_and_book (ResyHttp.exchange_with expired_server)
    "123" "2025-06-01" "19:00" 2
  = Returns (ResyApi.failure "no_availability").
Proof.
  eapply (search_and_book_no_availability_over_http expired_server);
    [reflexivity|by left].
Defined.



(* ====================================================================== *)
(** ** Matching names and senders *)
(* ====================================================================== *)

Lemma lower_char_idempotent (c : ascii) :
  PyStr.lower_char (PyStr.lower_char c) = PyStr.lower_char c.
Proof. by destruct c as [[] [] [] [] [] [] [] []]. Qed.

Lemma lower_idempotent (s : string) : PyStr.lower (PyStr.lower s) = PyStr.lower s.
Proof.
  induction s as [|c s IH]; [done|].
  cbn [PyStr.lower]. by rewrite lower_char_idempotent, IH.
Qed.

Lemma contains_refl (s : string) : PyStr.contains s s = true.
Proof.
  apply contains_spec. exists EmptyString, EmptyString.
  change (s = (s ++ "")%string).
  induction s as [|c s IH]; [done|].
  change (String c s = String c (s ++ "")%string). by rewrite <- IH.
Qed.

Lemma contains_empty (s : string) : PyStr.contains "" s = true.
Proof. apply contains_spec. by exists EmptyString, s. Qed.

(** X15.  Name matching ignores letter case and is generous with empty
    names: a notification matches every subscription whose restaurant name
    equals the event's name up to letter case; replacing the event name by
    its lowercase form changes no match; and a subscription whose
    restaurant name is the empty string (the column default) matches every
    notification. *)
Theorem name_matches_ignores_case (name : string)
    (sub : NotificationSubscription.t) :
  (PyStr.lower name
   = PyStr.lower (NotificationSubscription.restaurant_name sub) →
   NotificationHandler.name_matches name sub = true)
  ∧ NotificationHandler.name_matches (PyStr.lower name) sub
    = NotificationHandler.name_matches name sub
  ∧ (NotificationSubscription.restaurant_name sub = "" →
     NotificationHandler.name_matches name sub = true).
Proof.
  unfold NotificationHandler.name_matches. split; [|split].
  - intros ->. by rewrite contains_refl.
  - by rewrite lower_idempotent.
  - intros ->. cbn [PyStr.lower]. by rewrite contains_empty, orb_true_r.
Qed.

Lemma name_matches_ignores_case_witness :
  NotificationHandler.name_matches "CARBONE" (Sample.subscription "Carbone")
  = true.
Proof.
  destruct (name_matches_ignores_case "CARBONE" (Sample.subscription "Carbone"))
    as [H _].
  by apply H.
Defined.

Lemma existsb_contains (senders : list string) (text : string) :
  existsb (λ sender, PyStr.contains sender text) senders = true
  ↔ ∃ sender, sender ∈ senders ∧ substring_of sender text.
Proof.
  rewrite existsb_exists. split; intros (sender & Hin & Hc); exists sender.
  - split; [by apply list_elem_of_In|by apply contains_spec].
  - split; [by apply list_elem_of_In|by apply contains_spec].
Qed.

(** X16.  [_identify_platform] classifies a sender address by containment
    of a known sender in the lowercased address.  It answers "resy" exactly
    when one of the Resy senders occurs in it, "opentable" exactly when no
    Resy sender but one of the OpenTable senders occurs, and [None]
    otherwise; so Resy wins when both occur, the answer does not depend on
    the letter case of the address, and it is never an empty platform. *)
Theorem identify_platform_by_sender (from_addr : string) :
  let resy_sender :=
    ∃ sender, sender ∈ GmailMonitor.RESY_SENDERS
              ∧ substring_of sender (PyStr.lower from_addr) in
  let opentable_sender :=
    ∃ sender, sender ∈ GmailMonitor.OPENTABLE_SENDERS
              ∧ substring_of sender (PyStr.lower from_addr) in
  (GmailMonitor._identify_platform from_addr = Some "resy" ↔ resy_sender)
  ∧ (GmailMonitor._identify_platform from_addr = Some "opentable"
     ↔ ¬ resy_sender ∧ opentable_sender)
  ∧ (GmailMonitor._identify_platform from_addr = None
     ↔ ¬ resy_sender ∧ ¬ opentable_sender)
  ∧ GmailMonitor._identify_platform (PyStr.lower from_addr)
    = GmailMonitor._identify_platform from_addr
  ∧ (∀ platform, GmailMonitor._identify_platform from_addr = Some platform →
       truthy (Some platform) = true).
Proof.
  intros resy_sender opentable_sender.
  assert (GmailMonitor._identify_platform (PyStr.lower from_addr)
          = GmailMonitor._identify_platform from_addr) as Hlow.
  { unfold GmailMonitor._identify_platform. by rewrite lower_idempotent. }
  rewrite Hlow. clear Hlow.
  unfold GmailMonitor._identify_platform.
  pose proof (existsb_contains GmailMonitor.RESY_SENDERS (PyStr.lower from_addr))
    as Hr.
  pose proof (existsb_contains GmailMonitor.OPENTABLE_SENDERS
                (PyStr.lower from_addr)) as Ho.
  fold resy_sender in Hr. fold opentable_sender in Ho.
  destruct (existsb _ GmailMonitor.RESY_SENDERS);
    [|destruct (existsb _ GmailMonitor.OPENTABLE_SENDERS)].
  - assert resy_sender as Hyes by (by apply Hr).
    repeat split; try done; try tauto. by intros ? [= <-].
  - assert (¬ resy_sender) as Hno by (rewrite <- Hr; discriminate).
    assert opentable_sender as Hyes by (by apply Ho).
    repeat split; try done; try tauto. by intros ? [= <-].
  - assert (¬ resy_sender) as Hno by (rewrite <- Hr; discriminate).
    assert (¬ opentable_sender) as Hno' by (rewrite <- Ho; discriminate).
    repeat split; try done; tauto.
Qed.

Lemma identify_platform_by_sender_witness :
  GmailMonitor._identify_platform "Resy <Notify@Resy.com>" = Some "resy".
Proof.
  destruct (identify_platform_by_sender "Resy <Notify@Resy.com>") as [H _].
  apply H. exists "notify@resy.com". split; [left|].
  by exists "resy <", ">".
Defined.

(** X17.  [handle_notifications] never writes.  For every batch of
    notifications and every state, the state after the call is the state
    before it.  The call returns normally exactly when every notification
    of the batch is passed over, and it raises [ImportError] exactly when
    some notification of the batch has a matching active subscription: the
    import at the head of [_process_match] raises on the first match, and
    nothing in [handle_notifications] catches it. *)
Theorem handle_notifications_never_writes
    (auto_book : Z → string → M bool)
    (notifications : list NotificationHandler.Notification) (s : State) :
  run (NotificationHandler.handle_notifications auto_book notifications) s = s
  ∧ ((NotificationHandler.handle_notifications auto_book notifications s).1
     = Done tt
     ↔ Forall (λ notif, passed_over notif (store s)) notifications)
  ∧ ((NotificationHandler.handle_notifications auto_book notifications s).1
     = Raised "ImportError"
     ↔ Exists (λ notif, ¬ passed_over notif (store s)) notifications).
Proof.
  unfold run.
  induction notifications as [|notif rest (IHs & IHd & IHr)].
  - cbn. split; [done|]. split; [done|].
    split; [done|by intros ?%Exists_nil].
  - cbn [NotificationHandler.handle_notifications]. unfold bind.
    destruct (handle_notification_cases auto_book notif s)
      as [[Hskip ->]|[Hmatch ->]]; cbn [fst snd].
    + split; [exact IHs|]. rewrite Forall_cons, Exists_cons, IHd, IHr. tauto.
    + split; [done|]. rewrite Forall_cons, Exists_cons.
      split; split; try done; [tauto|by left].
Qed.

Lemma handle_notifications_never_writes_witness :
  (NotificationHandler.handle_notifications Sample.no_auto_book
     [Sample.notification None; Sample.notification (Some "carbone")]
     (Sample.state_of (Sample.carbone "no_availability" None)
        [Sample.subscription "Carbone"])).1
  = Raised "ImportError".
Proof.
  apply (handle_notifications_never_writes Sample.no_auto_book).
  apply Exists_cons. right. apply Exists_cons. left.
  intros [Hn|[Hp|Hnone]]; [discriminate..|].
  apply (Hnone (Sample.subscription "Carbone")); [left|reflexivity..|].
  left. by exists EmptyString, EmptyString.
Defined.

(* ====================================================================== *)
(** ** The status endpoint *)
(* ====================================================================== *)

(** X18.  The counters of [GET /api/status].  The number of active snipers
    never exceeds the number of requests.  Cancelling an existing Request
    leaves the number of requests and the number of bookings as they were
    and lowers the number of active snipers by one exactly when the Request
    was "waiting" or "polling". *)
Theorem system_status_counts (id : Z) (s : State) (r : ReservationRequest.t) :
  requests (store s) !! id = Some r →
  let before := Status.system_status (store s) in
  let after :=
    Status.system_status (store (run (Reservations.cancel_reservation id) s)) in
  (Status.active_snipers before ≤ Status.total_requests before)%nat
  ∧ Status.total_requests after = Status.total_requests before
  ∧ Status.total_bookings after = Status.total_bookings before
  ∧ Status.active_snipers after
    = (Status.active_snipers before
       - if bool_decide (ReservationRequest.status r ∈ ["waiting"; "polling"])
         then 1 else 0)%nat.
Proof.
  intros Hr before after. subst before after.
  rewrite cancel_reservation_unfold, Hr. unfold Status.system_status. cbn.
  split; [apply map_size_filter|]. split; [|split; [done|]].
  - rewrite map_size_insert, Hr. done.
  - rewrite map_filter_insert_False
      by (cbn; rewrite !elem_of_cons, elem_of_nil; by intros [|[|]]).
    rewrite map_filter_delete, map_size_delete.
    case_bool_decide as Hsn.
    + rewrite (map_lookup_filter_Some_2 _ _ id r) by done.
      lia.
    + destruct (filter _ (requests (store s)) !! id) as [r'|] eqn:Hf;
        [|unfold Datatypes.id; lia].
      apply map_lookup_filter_Some in Hf as [Hr' Hin].
      rewrite Hr in Hr'. injection Hr' as <-. by destruct Hsn.
Qed.

Lemma system_status_counts_witness :
  Status.active_snipers
    (Status.system_status
       (store (run (Reservations.cancel_reservation 1)
                 (Sample.state_of (Sample.carbone "polling" (Some 0)) []))))
  = 0%nat.
Proof.
  destruct (system_status_counts 1
              (Sample.state_of (Sample.carbone "polling" (Some 0)) [])
              (Sample.carbone "polling" (Some 0)) eq_refl) as (_ & _ & _ & H).
  rewrite H. vm_compute. reflexivity.
Defined.
